(** * Stale-read detection and cache refresh for Tekton run listers

    A shallow embedding of
    [pkg/client/informers/externalversions/pipeline/v1/lister.go]:
    the [RefreshLister] interface, its two adapters ([TaskRunLister],
    [PipelineRunLister]), the divergence detector [needRefresh] and the
    list orchestrator [fetchOrRefreshList], together with the test double
    [testLister] of the accompanying test file.

    Go values are modelled as follows.
    - A pointer [*T] is [ptr T := option T]; [nil] is [None].
    - An [error] is [option string] (the message of the error value);
      [nil] is [None].
    - A slice [[]T] is [list T]; the nil slice is [[]].
    - [map[string]bool] is [option (gmap string bool)]: [None] is the nil
      map, [Some m] an allocated one.  Reading an absent key, or any key
      of the nil map, gives [false]; writing to the nil map panics.  The
      map is passed by reference, so the function returns the map as it
      is after the call.
    - Methods of a lister may touch state of their own (the remote store,
      or the counters of the test double): they are state transformers on
      a lister state [W].  Every [List] and [Get] call is recorded with its
      arguments and its answer in a call history, every log line in a log.
    - A run-time panic (a method called through a nil pointer) is the
      [Panic] outcome. *)

From stdpp Require Import gmap strings list fin_maps.

Open Scope string_scope.
Open Scope list_scope.

(** ** Go values *)

Definition ptr (A : Type) : Type := option A.
Definition error : Type := option string.

Definition isNil {A : Type} (p : option A) : bool :=
  match p with
  | None => true
  | Some _ => false
  end.

(** ** API machinery types used by the listers *)

Module metav1.

(** Modelled from the spec: [metav1.Time] is declared outside the
    sources at hand.  A time is an instant counted from January 1 of
    year 1, 00:00:00 UTC, in seconds and nanoseconds; the zero instant
    is the unset time. *)
Record Time : Type := { sec : Z; nsec : Z }.

(** [func (t *Time) IsZero() bool]: a nil time is zero. *)
Definition IsZero (t : ptr Time) : bool :=
  match t with
  | None => true
  | Some t => (sec t =? 0)%Z && (nsec t =? 0)%Z
  end.

(** Modelled from the spec: [metav1.ListOptions], declared outside the
    sources at hand; [ResourceVersion] is the version/consistency
    token, whose empty value asks for a read that does not use the
    cache. *)
Record ListOptions : Type := {
  LabelSelector : string;
  FieldSelector : string;
  Watch : bool;
  AllowWatchBookmarks : bool;
  ResourceVersion : string;
  ResourceVersionMatch : string;
  TimeoutSeconds : ptr Z;
  Limit : Z;
  Continue : string;
  SendInitialEvents : ptr bool
}.

(** [func (in *ListOptions) DeepCopy() *ListOptions]: a fresh value,
    field by field (the two pointer fields are copied cell by cell). *)
Definition DeepCopy (o : ListOptions) : ListOptions :=
  {| LabelSelector := LabelSelector o;
     FieldSelector := FieldSelector o;
     Watch := Watch o;
     AllowWatchBookmarks := AllowWatchBookmarks o;
     ResourceVersion := ResourceVersion o;
     ResourceVersionMatch := ResourceVersionMatch o;
     TimeoutSeconds := match TimeoutSeconds o with
                       | Some n => Some n
                       | None => None
                       end;
     Limit := Limit o;
     Continue := Continue o;
     SendInitialEvents := match SendInitialEvents o with
                          | Some b => Some b
                          | None => None
                          end |}.

(** The assignment [ops.ResourceVersion = v]. *)
Definition setResourceVersion (v : string) (o : ListOptions) : ListOptions :=
  {| LabelSelector := LabelSelector o;
     FieldSelector := FieldSelector o;
     Watch := Watch o;
     AllowWatchBookmarks := AllowWatchBookmarks o;
     ResourceVersion := v;
     ResourceVersionMatch := ResourceVersionMatch o;
     TimeoutSeconds := TimeoutSeconds o;
     Limit := Limit o;
     Continue := Continue o;
     SendInitialEvents := SendInitialEvents o |}.

(** The zero value [metav1.ListOptions{}]. *)
Definition ListOptions_zero : ListOptions :=
  {| LabelSelector := ""; FieldSelector := ""; Watch := false;
     AllowWatchBookmarks := false; ResourceVersion := "";
     ResourceVersionMatch := ""; TimeoutSeconds := None; Limit := 0%Z;
     Continue := ""; SendInitialEvents := None |}.

(** Modelled from the spec: [metav1.GetOptions], declared outside the
    sources at hand. *)
Record GetOptions : Type := { GetResourceVersion : string }.

(** The zero value [metav1.GetOptions{}]. *)
Definition GetOptions_zero : GetOptions := {| GetResourceVersion := "" |}.

(** [metav1.ObjectMeta], the identity of a resource. *)
Record ObjectMeta : Type := { Name : string; Namespace : string }.

(** [metav1.Object]: the accessors the orchestrator reaches through
    the assertion [interface{}(item).(metav1.Object)].  They are
    promoted from an [ObjectMeta] embedded by value, so a call through a
    nil pointer panics; on an allocated item they read a field. *)
Class Object (T : Type) : Type := {
  GetName : T -> string;
  GetNamespace : T -> string
}.

End metav1.

Import metav1.

(** ** Resource kinds *)

Module v1.

(** Modelled from the spec: the run types of [pkg/apis/pipeline/v1]
    are not among the sources at hand.  A run has an identity and a
    status whose emptiness is "no start time has been recorded". *)
Record TaskRunStatus : Type := { TaskRunStartTime : ptr Time }.
Record TaskRun : Type := {
  TaskRunMeta : ObjectMeta;
  TaskRunStatusOf : TaskRunStatus
}.
Record TaskRunList : Type := { TaskRunItems : list TaskRun }.

Record PipelineRunStatus : Type := { PipelineRunStartTime : ptr Time }.
Record PipelineRun : Type := {
  PipelineRunMeta : ObjectMeta;
  PipelineRunStatusOf : PipelineRunStatus
}.
Record PipelineRunList : Type := { PipelineRunItems : list PipelineRun }.

#[export] Instance TaskRun_Object : Object TaskRun :=
  {| GetName r := Name (TaskRunMeta r);
     GetNamespace r := Namespace (TaskRunMeta r) |}.

#[export] Instance PipelineRun_Object : Object PipelineRun :=
  {| GetName r := Name (PipelineRunMeta r);
     GetNamespace r := Namespace (PipelineRunMeta r) |}.

End v1.

Import v1.

(** ** Outcomes, histories and the monad of lister code *)

(** One remote call, with what was asked and what was answered. *)
Inductive Call (T L : Type) : Type :=
| CList (namespace : string) (opts : ListOptions) (res : ptr L) (err : error)
| CGet (namespace name : string) (opts : GetOptions) (res : ptr T) (err : error).
Arguments CList {T L}.
Arguments CGet {T L}.

(** One line of the structured log; the group-version-kind string and the
    measured duration are left out. *)
Inductive LogEntry : Type :=
| LogDetected (ns : string) (options : ListOptions)
              (name namespace : string) (err : error)
| LogRefreshed (ns : string) (err : error).

Record State (W T L : Type) : Type := {
  world : W;
  calls : list (Call T L);
  logs : list LogEntry
}.
Arguments world {W T L}.
Arguments calls {W T L}.
Arguments logs {W T L}.

Inductive Res (S A : Type) : Type :=
| Ok (a : A) (s : S)
| Panic (msg : string).
Arguments Ok {S A}.
Arguments Panic {S A}.

Definition M (S A : Type) : Type := S -> Res S A.

Definition ret {S A : Type} (a : A) : M S A := fun s => Ok a s.

Definition bind {S A B : Type} (m : M S A) (k : A -> M S B) : M S B :=
  fun s =>
    match m s with
    | Ok a s' => k a s'
    | Panic msg => Panic msg
    end.

Definition panic {S A : Type} (msg : string) : M S A := fun _ => Panic msg.

Declare Scope go_scope.
Delimit Scope go_scope with go.
Notation "x <- m ;; k" := (bind m (fun x => k))
  (at level 100, m at next level, right associativity) : go_scope.
Open Scope go_scope.

(** The calls that a history holds. *)
Definition isList {T L : Type} (c : Call T L) : bool :=
  match c with
  | CList _ _ _ _ => true
  | CGet _ _ _ _ _ => false
  end.

Definition isGet {T L : Type} (c : Call T L) : bool := negb (isList c).

Definition listCalls {T L : Type} (h : list (Call T L)) : nat :=
  length (filter (fun c => isList c = true) h).

Definition getCalls {T L : Type} (h : list (Call T L)) : nat :=
  length (filter (fun c => isGet c = true) h).

(** The error answered by the last [List] call of a history. *)
Fixpoint lastListErr {T L : Type} (h : list (Call T L)) : option error :=
  match h with
  | [] => None
  | c :: h' =>
      match lastListErr h' with
      | Some e => Some e
      | None =>
          match c with
          | CList _ _ _ e => Some e
          | CGet _ _ _ _ _ => None
          end
      end
  end.

(** ** The lister interface *)

(** [RefreshLister[T, L]]: the four methods, each a transformer of the
    lister's own state [W]. *)
Class RefreshLister (W T L : Type) : Type := {
  List : string -> ListOptions -> W -> (ptr L * error) * W;
  Get : string -> string -> GetOptions -> W -> (ptr T * error) * W;
  GetItems : ptr L -> W -> list T * W;
  StatusIsEmpty : ptr T -> W -> bool * W
}.

Section Protocol.

Context {W T L : Type}.
Context `{RefreshLister W T L}.
Context `{Object T}.

Abbreviation St := (State W T L).

Definition setWorld (w : W) (s : St) : St :=
  {| world := w; calls := calls s; logs := logs s |}.

(** [lister.List(namespace, opts)], recorded in the history. *)
Definition callList (namespace : string) (opts : ListOptions)
  : M St (ptr L * error) :=
  fun s =>
    let '((res, err), w) := List namespace opts (world s) in
    Ok (res, err)
       {| world := w;
          calls := calls s ++ [CList namespace opts res err];
          logs := logs s |}.

(** [lister.Get(namespace, name, opts)], recorded in the history. *)
Definition callGet (namespace name : string) (opts : GetOptions)
  : M St (ptr T * error) :=
  fun s =>
    let '((res, err), w) := Get namespace name opts (world s) in
    Ok (res, err)
       {| world := w;
          calls := calls s ++ [CGet namespace name opts res err];
          logs := logs s |}.

(** [lister.GetItems(list)]. *)
Definition callGetItems (l : ptr L) : M St (list T) :=
  fun s =>
    let '(items, w) := GetItems l (world s) in
    Ok items (setWorld w s).

(** [lister.StatusIsEmpty(item)]. *)
Definition callStatusIsEmpty (item : ptr T) : M St bool :=
  fun s =>
    let '(b, w) := StatusIsEmpty item (world s) in
    Ok b (setWorld w s).

(** [logger.Infow(...)]. *)
Definition logInfow (e : LogEntry) : M St unit :=
  fun s =>
    Ok tt {| world := world s; calls := calls s; logs := logs s ++ [e] |}.

(** A method of [metav1.Object] reached through the pointer [item]. *)
Definition viaObject {A : Type} (f : T -> A) (item : ptr T) : M St A :=
  match item with
  | Some x => ret (f x)
  | None => panic "invalid memory address or nil pointer dereference"
  end.

(** [needRefresh]: is the status empty in the listed copy but not in
    the copy fetched directly? *)
Definition needRefresh (item : ptr T) : M St (bool * error) :=
  empty <- callStatusIsEmpty item ;;
  if negb empty then
    ret (false, None)
  else
    namespace <- viaObject GetNamespace item ;;
    name <- viaObject GetName item ;;
    got <- callGet namespace name GetOptions_zero ;;
    let '(item, err) := got in
    if negb (isNil err) then
      ret (true, err)
    else
      empty' <- callStatusIsEmpty item ;;
      ret (negb empty', None).

(** The loop [for i := range items] of [fetchOrRefreshList], with its
    [break]: the value is the final [refreshNeeded]. *)
Fixpoint scanItems (namespace : string) (options : ListOptions)
         (items : list T) : M St bool :=
  match items with
  | [] => ret false
  | x :: rest =>
      let item := Some x in
      r <- needRefresh item ;;
      let '(refresh, refreshErr) := r in
      if refresh || negb (isNil refreshErr) then
        name <- viaObject GetName item ;;
        ns <- viaObject GetNamespace item ;;
        _ <- logInfow (LogDetected namespace options name ns refreshErr) ;;
        ret true
      else
        scanItems namespace options rest
  end.

(** The [runtime.Object] a call returns: the nil interface, or the
    list pointer (itself possibly nil) wrapped in the interface. *)
Inductive RuntimeObject : Type :=
| NilObject
| ObjectOf (runs : ptr L).

(** The entry of a key in a map that may be nil. *)
Definition entry (cacheChecked : option (gmap string bool)) (key : string)
  : option bool :=
  match cacheChecked with
  | None => None
  | Some m => m !! key
  end.

(** [cacheChecked[namespace]]: an absent key reads as [false], in the
    nil map as well. *)
Definition checked (cacheChecked : option (gmap string bool))
           (namespace : string) : bool :=
  default false (entry cacheChecked namespace).

(** [cacheChecked[namespace] = true]: the nil map has no entries to
    assign to. *)
Definition setChecked (namespace : string)
           (cacheChecked : option (gmap string bool))
  : M St (option (gmap string bool)) :=
  match cacheChecked with
  | None => panic "assignment to entry in nil map"
  | Some m => ret (Some (<[namespace := true]> m))
  end.

(** [fetchOrRefreshList]: the value is the returned object, the
    returned error and the memo after the call. *)
Definition fetchOrRefreshList (namespace : string) (options : ListOptions)
           (cacheChecked : option (gmap string bool))
  : M St (RuntimeObject * error * option (gmap string bool)) :=
  listed <- callList namespace options ;;
  let '(runs, err) := listed in
  if negb (isNil err) then
    ret (NilObject, err, cacheChecked)
  else if checked cacheChecked namespace then
    ret (ObjectOf runs, err, cacheChecked)
  else
    items <- callGetItems runs ;;
    refreshNeeded <- scanItems namespace options items ;;
    final <- (if refreshNeeded then
                let ops := DeepCopy options in
                let ops := setResourceVersion "" ops in
                relisted <- callList namespace ops ;;
                _ <- logInfow (LogRefreshed namespace (snd relisted)) ;;
                ret relisted
              else
                ret (runs, err)) ;;
    let '(runs, err) := final in
    cacheChecked <- (if isNil err then setChecked namespace cacheChecked
                     else ret cacheChecked) ;;
    ret (ObjectOf runs, err, cacheChecked).

(** A sequence of calls on one memo, one after the other. *)
Fixpoint fetchMany (reqs : list (string * ListOptions))
         (cacheChecked : option (gmap string bool))
  : M St (option (gmap string bool)) :=
  match reqs with
  | [] => ret cacheChecked
  | (namespace, options) :: rest =>
      r <- fetchOrRefreshList namespace options cacheChecked ;;
      fetchMany rest (snd r)
  end.

(** The state after a recorded [List] call. *)
Definition afterList (namespace : string) (opts : ListOptions)
           (res : ptr L) (err : error) (w : W) (s : St) : St :=
  {| world := w;
     calls := calls s ++ [CList namespace opts res err];
     logs := logs s |}.

(** The state after a recorded [Get] call. *)
Definition afterGet (namespace name : string) (res : ptr T) (err : error)
           (w : W) (s : St) : St :=
  {| world := w;
     calls := calls s ++ [CGet namespace name GetOptions_zero res err];
     logs := logs s |}.

(** The state after one more log line. *)
Definition afterLog (e : LogEntry) (s : St) : St :=
  {| world := world s; calls := calls s; logs := logs s ++ [e] |}.

(** What a step may add to the history: at most [n] calls, all of
    them [Get] calls. *)
Definition getsOnly (n : nat) (s s' : St) : Prop :=
  exists g, calls s' = calls s ++ g
            /\ Forall (fun c => isGet c = true) g
            /\ length g <= n.

(** Running the detector over a run of items none of which asks for a
    refresh: the state reached, if every answer was [(false, nil)]. *)
Fixpoint quietScan (items : list T) (s : St) : option St :=
  match items with
  | [] => Some s
  | x :: rest =>
      match needRefresh (Some x) s with
      | Ok (false, None) s' => quietScan rest s'
      | _ => None
      end
  end.

(** Options that are the caller's with the version token cleared: the
    token is empty and every other field is the caller's. *)
Definition clearedFrom (options o : ListOptions) : Prop :=
  ResourceVersion o = ""
  /\ LabelSelector o = LabelSelector options
  /\ FieldSelector o = FieldSelector options
  /\ Watch o = Watch options
  /\ AllowWatchBookmarks o = AllowWatchBookmarks options
  /\ ResourceVersionMatch o = ResourceVersionMatch options
  /\ TimeoutSeconds o = TimeoutSeconds options
  /\ Limit o = Limit options
  /\ Continue o = Continue options
  /\ SendInitialEvents o = SendInitialEvents options.

(** A recorded call that, if it is a [List], is for [namespace] with the
    caller's options cleared of their version token. *)
Definition relistOf (namespace : string) (options : ListOptions)
           (c : Call T L) : Prop :=
  match c with
  | CList ns o _ _ => ns = namespace /\ clearedFrom options o
  | CGet _ _ _ _ _ => True
  end.

End Protocol.

Arguments RuntimeObject : clear implicits.
Arguments NilObject {L}.
Arguments ObjectOf {L}.

(** ** The two adapters *)

(** [versioned.Interface], as far as the listers use it: the typed
    clients [TektonV1().TaskRuns(ns)] and [TektonV1().PipelineRuns(ns)],
    acting on a client state [C]. *)
Record Clientset (C : Type) : Type := {
  TaskRuns_List : string -> ListOptions -> C -> (ptr TaskRunList * error) * C;
  TaskRuns_Get : string -> string -> GetOptions -> C -> (ptr TaskRun * error) * C;
  PipelineRuns_List :
    string -> ListOptions -> C -> (ptr PipelineRunList * error) * C;
  PipelineRuns_Get :
    string -> string -> GetOptions -> C -> (ptr PipelineRun * error) * C
}.
Arguments TaskRuns_List {C}.
Arguments TaskRuns_Get {C}.
Arguments PipelineRuns_List {C}.
Arguments PipelineRuns_Get {C}.

Module TaskRunLister.

Record t (C : Type) : Type := { Client : Clientset C }.
Arguments Client {C}.

Definition List {C : Type} (t : t C) (namespace : string) (opts : ListOptions)
  : C -> (ptr TaskRunList * error) * C :=
  TaskRuns_List (Client t) namespace opts.

Definition Get {C : Type} (t : t C) (namespace name : string)
           (opts : GetOptions) : C -> (ptr TaskRun * error) * C :=
  TaskRuns_Get (Client t) namespace name opts.

Definition GetItems (runs : ptr TaskRunList) : list TaskRun :=
  match runs with
  | None => []
  | Some l => TaskRunItems l
  end.

(** [run != nil && run.Status.StartTime.IsZero()] *)
Definition StatusIsEmpty (run : ptr TaskRun) : bool :=
  match run with
  | None => false
  | Some r => IsZero (TaskRunStartTime (TaskRunStatusOf r))
  end.

Definition lister {C : Type} (t : t C)
  : RefreshLister C TaskRun TaskRunList :=
  Build_RefreshLister C TaskRun TaskRunList
    (List t) (Get t)
    (fun runs c => (GetItems runs, c))
    (fun run c => (StatusIsEmpty run, c)).

End TaskRunLister.

Module PipelineRunLister.

Record t (C : Type) : Type := { Client : Clientset C }.
Arguments Client {C}.

Definition List {C : Type} (p : t C) (namespace : string) (opts : ListOptions)
  : C -> (ptr PipelineRunList * error) * C :=
  PipelineRuns_List (Client p) namespace opts.

Definition Get {C : Type} (p : t C) (namespace name : string)
           (opts : GetOptions) : C -> (ptr PipelineRun * error) * C :=
  PipelineRuns_Get (Client p) namespace name opts.

Definition GetItems (runs : ptr PipelineRunList) : list PipelineRun :=
  match runs with
  | None => []
  | Some l => PipelineRunItems l
  end.

(** [run != nil && run.Status.StartTime.IsZero()] *)
Definition StatusIsEmpty (run : ptr PipelineRun) : bool :=
  match run with
  | None => false
  | Some r => IsZero (PipelineRunStartTime (PipelineRunStatusOf r))
  end.

Definition lister {C : Type} (p : t C)
  : RefreshLister C PipelineRun PipelineRunList :=
  Build_RefreshLister C PipelineRun PipelineRunList
    (List p) (Get p)
    (fun runs c => (GetItems runs, c))
    (fun run c => (StatusIsEmpty run, c)).

End PipelineRunLister.

(** ** The test double of the test file *)

Module testLister.

(** The counters are Go ints that a test finds at zero in the double it
    builds and that the methods only increment; they are naturals here,
    so a negative [getCount], for which [Get] would index out of range,
    and the wrap at the largest int are outside the model. *)
Record state : Type := {
  getResponse : list (ptr TaskRun);
  getCount : nat;
  listResponse : ptr TaskRunList;
  listCount : nat;
  getItemsCount : nat;
  statusIsEmptyCount : nat
}.

(** The zero value [&v1.TaskRun{}]. *)
Definition emptyTaskRun : TaskRun :=
  {| TaskRunMeta := {| Name := ""; Namespace := "" |};
     TaskRunStatusOf := {| TaskRunStartTime := None |} |}.

Definition Get (namespace name : string) (opts : GetOptions) (t : state)
  : (ptr TaskRun * error) * state :=
  let t' := {| getResponse := getResponse t;
               getCount := S (getCount t);
               listResponse := listResponse t;
               listCount := listCount t;
               getItemsCount := getItemsCount t;
               statusIsEmptyCount := statusIsEmptyCount t |} in
  if decide (getCount t < length (getResponse t)) then
    ((default None (getResponse t !! getCount t), None), t')
  else
    ((Some emptyTaskRun, None), t').

Definition List (namespace : string) (opts : ListOptions) (t : state)
  : (ptr TaskRunList * error) * state :=
  ((listResponse t, None),
   {| getResponse := getResponse t;
      getCount := getCount t;
      listResponse := listResponse t;
      listCount := S (listCount t);
      getItemsCount := getItemsCount t;
      statusIsEmptyCount := statusIsEmptyCount t |}).

Definition GetItems (runs : ptr TaskRunList) (t : state)
  : list TaskRun * state :=
  let t' := {| getResponse := getResponse t;
               getCount := getCount t;
               listResponse := listResponse t;
               listCount := listCount t;
               getItemsCount := S (getItemsCount t);
               statusIsEmptyCount := statusIsEmptyCount t |} in
  match runs with
  | None => ([], t')
  | Some l => (TaskRunItems l, t')
  end.

Definition StatusIsEmpty (run : ptr TaskRun) (t : state) : bool * state :=
  (match run with
   | None => false
   | Some r => IsZero (TaskRunStartTime (TaskRunStatusOf r))
   end,
   {| getResponse := getResponse t;
      getCount := getCount t;
      listResponse := listResponse t;
      listCount := listCount t;
      getItemsCount := getItemsCount t;
      statusIsEmptyCount := S (statusIsEmptyCount t) |}).

#[export] Instance lister : RefreshLister state TaskRun TaskRunList :=
  Build_RefreshLister state TaskRun TaskRunList
    List Get GetItems StatusIsEmpty.

(** The fixtures of the test file. *)
Definition namespace : string := "ns".
Definition now : Time := {| sec := 63900000000; nsec := 0 |}.
Definition noStatus : TaskRun :=
  {| TaskRunMeta := {| Name := "taskrun1"; Namespace := namespace |};
     TaskRunStatusOf := {| TaskRunStartTime := None |} |}.
Definition hasStatus : TaskRun :=
  {| TaskRunMeta := {| Name := "taskrun2"; Namespace := namespace |};
     TaskRunStatusOf := {| TaskRunStartTime := Some now |} |}.
Definition noStatusItems : list TaskRun := [noStatus; noStatus].
Definition hasStatusItems : list TaskRun := [hasStatus; hasStatus].

Definition new (getResponse : list (ptr TaskRun)) (items : list TaskRun)
  : state :=
  {| getResponse := getResponse; getCount := 0;
     listResponse := Some {| TaskRunItems := items |}; listCount := 0;
     getItemsCount := 0; statusIsEmptyCount := 0 |}.

Definition start (w : state) : State state TaskRun TaskRunList :=
  {| world := w; calls := []; logs := [] |}.

(** One test: a call on a fresh double with the given answers, and
    what the test then reads: [getCount], [listCount] and
    [cacheChecked[namespace]], next to the calls the history counted. *)
Definition replay (getResponse : list (ptr TaskRun)) (items : list TaskRun)
           (cacheChecked : option (gmap string bool))
  : option (nat * nat * bool * nat * nat) :=
  match fetchOrRefreshList namespace ListOptions_zero cacheChecked
                           (start (new getResponse items)) with
  | Ok (_, _, memo') s =>
      Some (getCount (world s), listCount (world s), checked memo' namespace,
            getCalls (calls s), listCalls (calls s))
  | Panic _ => None
  end.

End testLister.

(** ** An in-memory clientset

    A small stand-in for the remote API server, used to run the adapters
    on concrete data: [cache] is what a [List] with a version token is
    served from, [etcd] what a [List] without token and every [Get] read,
    and [down] makes every [List] fail.  As the generated typed clients
    do, a failing call answers an allocated empty object next to its
    error. *)

Module fake.

Record store : Type := {
  cache : list TaskRun;
  etcd : list TaskRun;
  down : bool
}.

Definition inNamespace (namespace : string) (r : TaskRun) : bool :=
  bool_decide (Namespace (TaskRunMeta r) = namespace).

Definition named (namespace name : string) (r : TaskRun) : bool :=
  inNamespace namespace r && bool_decide (Name (TaskRunMeta r) = name).

Definition List (namespace : string) (opts : ListOptions) (c : store)
  : (ptr TaskRunList * error) * store :=
  if down c then
    ((Some {| TaskRunItems := [] |},
      Some "the server is currently unable to handle the request"), c)
  else
    let source :=
      if bool_decide (ResourceVersion opts = "") then etcd c else cache c in
    ((Some {| TaskRunItems := List.filter (inNamespace namespace) source |},
      None), c).

Definition Get (namespace name : string) (opts : GetOptions) (c : store)
  : (ptr TaskRun * error) * store :=
  match List.find (named namespace name) (etcd c) with
  | Some r => ((Some r, None), c)
  | None => ((Some testLister.emptyTaskRun, Some "not found"), c)
  end.

Definition clientset : Clientset store :=
  {| TaskRuns_List := List;
     TaskRuns_Get := Get;
     PipelineRuns_List := fun _ _ c =>
       ((Some {| PipelineRunItems := [] |}, None), c);
     PipelineRuns_Get := fun _ _ _ c => ((None, Some "not found"), c) |}.

#[export] Instance taskRuns : RefreshLister store TaskRun TaskRunList :=
  TaskRunLister.lister {| TaskRunLister.Client := clientset |}.

Definition start (c : store) : State store TaskRun TaskRunList :=
  {| world := c; calls := []; logs := [] |}.

(** A run listed without status by the cache, with status in [etcd]. *)
Definition stale : TaskRun := testLister.noStatus.
Definition fresh : TaskRun :=
  {| TaskRunMeta := TaskRunMeta testLister.noStatus;
     TaskRunStatusOf := {| TaskRunStartTime := Some testLister.now |} |}.

(** Options carrying a version token. *)
Definition cachedRead : ListOptions :=
  setResourceVersion "0" ListOptions_zero.

(** A run without status in the cache and in [etcd] alike, and a run
    without status that is listed last. *)
Definition waiting : TaskRun :=
  {| TaskRunMeta := {| Name := "taskrun0"; Namespace := "ns" |};
     TaskRunStatusOf := {| TaskRunStartTime := None |} |}.
Definition later : TaskRun :=
  {| TaskRunMeta := {| Name := "taskrun3"; Namespace := "ns" |};
     TaskRunStatusOf := {| TaskRunStartTime := None |} |}.

(** A cache that still lists the second of three runs after it was
    deleted from [etcd]. *)
Definition outdated : store :=
  {| cache := [waiting; stale; later];
     etcd := [waiting; later];
     down := false |}.

(** A cache that lags behind [etcd] for the second of three runs. *)
Definition lagging : store :=
  {| cache := [waiting; stale; later];
     etcd := [waiting; fresh; later];
     down := false |}.

End fake.

(** ** Further vocabulary for the orchestrator *)

Section ProtocolVocabulary.

Context {W T L : Type}.
Context `{RefreshLister W T L}.
Context `{Object T}.

(** A call that is the direct fetch of the item [x]: a [Get] for the
    namespace and name of [x], with the zero options. *)
Definition getFor (x : T) (c : Call T L) : Prop :=
  match c with
  | CGet namespace name opts _ _ =>
      namespace = GetNamespace x /\ name = GetName x
      /\ opts = GetOptions_zero
  | CList _ _ _ _ => False
  end.

(** A call that is the direct fetch of one of [items]. *)
Definition getAmong (items : list T) (c : Call T L) : Prop :=
  exists x, x ∈ items /\ getFor x c.

(** An item whose status the lister reports as populated, whatever the
    state of the lister. *)
Definition populated (x : T) : Prop :=
  forall w : W, fst (StatusIsEmpty (Some x) w) = false.

(** The items that the first [List] call of a call made in state [s]
    hands to the scan. *)
Definition listedItems (namespace : string) (options : ListOptions)
           (s : State W T L) : list T :=
  let '((runs, _), w1) := List namespace options (world s) in
  fst (GetItems runs w1).

(** The namespaces of a sequence of requests. *)
Definition requested (reqs : list (string * ListOptions)) : list string :=
  map fst reqs.

End ProtocolVocabulary.

(** ** Showing the logs of a sidecar

    [internal/sidecarlogresults/sidecarlogresults_debug.go].  The pod
    log request, the reader it answers and the logger are collaborators:
    the request and the reader act on a state [W] of their own, and what
    the function did is recorded, in order, as events. *)

Module sidecarlogresults.

(** [corev1.PodPhase] is a string type; [corev1.PodPending] one of its
    constants. *)
Definition PodPhase : Type := string.
Definition PodPending : PodPhase := "Pending".

(** [corev1.PodLogOptions], as far as it is set here. *)
Record PodLogOptions : Type := { Container : string }.

(** The pod log client and the [io.ReadCloser] it answers, of type [R]:
    [Pods(namespace).GetLogs(name, opts).Stream(ctx)], [io.ReadAll] and
    [Close]. *)
Class PodLogs (W R : Type) : Type := {
  Stream : string -> string -> PodLogOptions -> W -> (ptr R * error) * W;
  ReadAll : R -> W -> (string * error) * W;
  Close : R -> W -> error * W
}.

Inductive Level : Type := InfoLevel | ErrorLevel.

(** A sugared logger is the fields attached to it by [With]; a line is
    its level, its message and its fields, those of the logger first. *)
Definition Logger : Type := list (string * string).

Definition With (key value : string) (logger : Logger) : Logger :=
  logger ++ [(key, value)].

Inductive Event (R : Type) : Type :=
| EvStream (namespace name : string) (opts : PodLogOptions)
| EvReadAll (r : R)
| EvClose (r : R)
| EvLog (level : Level) (msg : string) (fields : list (string * string)).
Arguments EvStream {R}.
Arguments EvReadAll {R}.
Arguments EvClose {R}.
Arguments EvLog {R}.

Record IO (W R : Type) : Type := { io : W; trace : list (Event R) }.
Arguments io {W R}.
Arguments trace {W R}.

Section Debug.

Context {W R : Type}.
Context `{PodLogs W R}.

Definition record (e : Event R) (w : W) (s : IO W R) : IO W R :=
  {| io := w; trace := trace s ++ [e] |}.

Definition callStream (namespace name : string) (opts : PodLogOptions)
  : M (IO W R) (ptr R * error) :=
  fun s =>
    let '(answer, w) := Stream namespace name opts (io s) in
    Ok answer (record (EvStream namespace name opts) w s).

Definition callReadAll (r : R) : M (IO W R) (string * error) :=
  fun s =>
    let '(answer, w) := ReadAll r (io s) in
    Ok answer (record (EvReadAll r) w s).

Definition callClose (r : R) : M (IO W R) error :=
  fun s =>
    let '(err, w) := Close r (io s) in
    Ok err (record (EvClose r) w s).

Definition Infow (logger : Logger) (msg : string)
           (keysAndValues : list (string * string)) : M (IO W R) unit :=
  fun s => Ok tt (record (EvLog InfoLevel msg (logger ++ keysAndValues)) (io s) s).

Definition Errorw (logger : Logger) (msg : string)
           (keysAndValues : list (string * string)) : M (IO W R) unit :=
  fun s => Ok tt (record (EvLog ErrorLevel msg (logger ++ keysAndValues)) (io s) s).

(** The message of an error value that is not nil. *)
Definition errorText (err : error) : string := default "" err.

(** [DebugSidecarLogs]; the deferred [Close] runs last, and a nil
    reader next to a nil error panics where the [defer] takes its
    method. *)
Definition DebugSidecarLogs (logger : Logger) (namespace name container : string)
           (podPhase : PodPhase) : M (IO W R) unit :=
  let logger := With "ns" namespace (With "pod" name logger) in
  if bool_decide (podPhase = PodPending) then
    Infow logger "pod is in pending state, skipping sidecar logs" []
  else
    let podLogOpts := {| Container := container |} in
    answer <- callStream namespace name podLogOpts ;;
    let '(sidecarLogs, err) := answer in
    if negb (isNil err) then
      Errorw logger "error getting sidecar logs" [("error", errorText err)]
    else
      match sidecarLogs with
      | None => panic "invalid memory address or nil pointer dereference"
      | Some r =>
          got <- callReadAll r ;;
          let '(data, err) := got in
          _ <- (if negb (isNil err) then
                  Errorw logger "error reading sidecar logs"
                         [("error", errorText err)]
                else ret tt) ;;
          _ <- Infow logger "sidecar logs" [("logs", data)] ;;
          _ <- callClose r ;;
          ret tt
      end.

(** The requests, reads and closes among events. *)
Definition isStream (e : Event R) : bool :=
  match e with EvStream _ _ _ => true | _ => false end.

Definition isReadAll (e : Event R) : bool :=
  match e with EvReadAll _ => true | _ => false end.

Definition isClose (e : Event R) : bool :=
  match e with EvClose _ => true | _ => false end.

Definition isLog (e : Event R) : bool :=
  match e with EvLog _ _ _ => true | _ => false end.

Definition count (f : Event R -> bool) (t : list (Event R)) : nat :=
  length (List.filter f t).

End Debug.

(** A pod log service kept in memory: the logs of each container that
    has any, and whether reading breaks off half way. *)
Record memLogs : Type := {
  containers : list (string * string);
  broken : bool;
  closed : nat
}.

Definition memStream (namespace name : string) (opts : PodLogOptions)
           (w : memLogs) : (ptr string * error) * memLogs :=
  match List.find (fun kv => bool_decide (fst kv = Container opts))
                  (containers w) with
  | Some kv => ((Some (snd kv), None), w)
  | None => ((None, Some "container not found"), w)
  end.

Definition memReadAll (r : string) (w : memLogs)
  : (string * error) * memLogs :=
  if broken w then ((String.substring 0 (String.length r / 2) r,
                     Some "unexpected EOF"), w)
  else ((r, None), w).

Definition memClose (r : string) (w : memLogs) : error * memLogs :=
  (None, {| containers := containers w; broken := broken w;
            closed := S (closed w) |}).

Definition memPodLogs : PodLogs memLogs string :=
  {| Stream := memStream; ReadAll := memReadAll; Close := memClose |}.

Definition start (w : memLogs) : IO memLogs string :=
  {| io := w; trace := [] |}.

End sidecarlogresults.

(** * Properties *)

(** ** Options *)

Lemma DeepCopy_id (o : ListOptions) : DeepCopy o = o.
Proof.
  destruct o as [ls fs w a rv rvm ts lim c sie].
  unfold DeepCopy; cbn. destruct ts, sie; reflexivity.
Qed.

Lemma setResourceVersion_fields (v : string) (o : ListOptions) :
  ResourceVersion (setResourceVersion v o) = v
  /\ LabelSelector (setResourceVersion v o) = LabelSelector o
  /\ FieldSelector (setResourceVersion v o) = FieldSelector o
  /\ Watch (setResourceVersion v o) = Watch o
  /\ AllowWatchBookmarks (setResourceVersion v o) = AllowWatchBookmarks o
  /\ ResourceVersionMatch (setResourceVersion v o) = ResourceVersionMatch o
  /\ TimeoutSeconds (setResourceVersion v o) = TimeoutSeconds o
  /\ Limit (setResourceVersion v o) = Limit o
  /\ Continue (setResourceVersion v o) = Continue o
  /\ SendInitialEvents (setResourceVersion v o) = SendInitialEvents o.
Proof. repeat split. Qed.

Lemma clearedFrom_setResourceVersion (options : ListOptions) :
  clearedFrom options (setResourceVersion "" options).
Proof. repeat split. Qed.

(** The cleared options are determined: they are what the orchestrator
    builds from the caller's by a deep copy and the assignment of the
    empty token. *)
Lemma clearedFrom_unique (options o : ListOptions) :
  clearedFrom options o -> o = setResourceVersion "" (DeepCopy options).
Proof.
  destruct options as [ls fs w a rv rvm ts lim c sie].
  destruct o as [ls' fs' w' a' rv' rvm' ts' lim' c' sie'].
  unfold clearedFrom. cbn. intros (-> & -> & -> & -> & -> & -> & -> & -> & -> & ->).
  destruct ts, sie; reflexivity.
Qed.

(** ** Histories *)

Section Histories.

Context {T L : Type}.
Implicit Types h g : list (Call T L).

Lemma listCalls_app h g : listCalls (h ++ g) = listCalls h + listCalls g.
Proof. unfold listCalls. by rewrite filter_app, length_app. Qed.

Lemma getCalls_app h g : getCalls (h ++ g) = getCalls h + getCalls g.
Proof. unfold getCalls. by rewrite filter_app, length_app. Qed.

Lemma listCalls_gets g :
  Forall (fun c => isGet c = true) g -> listCalls g = 0.
Proof.
  induction 1 as [|c g Hc _ IH]; [done|].
  unfold listCalls in *. rewrite filter_cons.
  destruct c; cbn in *; [discriminate|].
  case_decide; [discriminate | exact IH].
Qed.

Lemma lastListErr_app_list h ns o r e :
  lastListErr (h ++ [CList ns o r e]) = Some e.
Proof. induction h as [|c h IH]; cbn; [done|]. by rewrite IH. Qed.

Lemma lastListErr_app_gets h g :
  Forall (fun c => isGet c = true) g ->
  lastListErr (h ++ g) = lastListErr h.
Proof.
  intros Hg. induction h as [|c h IH]; cbn.
  - induction Hg as [|c g Hc _ IH]; cbn; [done|].
    rewrite IH. destruct c; [discriminate | done].
  - by rewrite IH.
Qed.

End Histories.

(** ** The detector and the scan *)

Section ProtocolFacts.

Context {W T L : Type}.
Context `{RefreshLister W T L}.
Context `{Object T}.

Abbreviation St := (State W T L).
Implicit Types s : St.

Lemma getsOnly_same n s s' : calls s' = calls s -> getsOnly n s s'.
Proof.
  intros E. exists []. rewrite app_nil_r.
  split; [done|]. split; [constructor | cbn; lia].
Qed.

Lemma getsOnly_trans n m s1 s2 s3 :
  getsOnly n s1 s2 -> getsOnly m s2 s3 -> getsOnly (n + m) s1 s3.
Proof.
  intros (g1 & E1 & F1 & L1) (g2 & E2 & F2 & L2). exists (g1 ++ g2).
  split; [by rewrite E2, E1, app_assoc|].
  split; [by apply Forall_app | rewrite length_app; lia].
Qed.

Lemma getsOnly_mono n m s s' : n <= m -> getsOnly n s s' -> getsOnly m s s'.
Proof. intros Hle (g & E & F & Hlen). exists g.
  split; [done|]. split; [done | lia]. Qed.

Lemma callList_eq namespace opts s res err w :
  List namespace opts (world s) = ((res, err), w) ->
  callList namespace opts s
  = Ok (res, err) (afterList namespace opts res err w s).
Proof. intros E. unfold callList. by rewrite E. Qed.

Lemma callGet_eq namespace name s res err w :
  Get namespace name GetOptions_zero (world s) = ((res, err), w) ->
  callGet namespace name GetOptions_zero s
  = Ok (res, err) (afterGet namespace name res err w s).
Proof. intros E. unfold callGet. by rewrite E. Qed.

Lemma callStatusIsEmpty_eq item s b w :
  StatusIsEmpty item (world s) = (b, w) ->
  callStatusIsEmpty item s = Ok b (setWorld w s).
Proof. intros E. unfold callStatusIsEmpty. by rewrite E. Qed.

Lemma callGetItems_eq runs s items w :
  GetItems runs (world s) = (items, w) ->
  callGetItems runs s = Ok items (setWorld w s).
Proof. intros E. unfold callGetItems. by rewrite E. Qed.

(** The three ways out of [needRefresh]. *)
Lemma needRefresh_populated item s w :
  StatusIsEmpty item (world s) = (false, w) ->
  needRefresh item s = Ok (false, None) (setWorld w s).
Proof.
  intros E. unfold needRefresh, bind.
  by rewrite (callStatusIsEmpty_eq _ _ _ _ E).
Qed.

Lemma needRefresh_get_failed x s w1 res e w2 :
  StatusIsEmpty (Some x) (world s) = (true, w1) ->
  Get (GetNamespace x) (GetName x) GetOptions_zero w1 = ((res, Some e), w2) ->
  needRefresh (Some x) s
  = Ok (true, Some e)
       (afterGet (GetNamespace x) (GetName x) res (Some e) w2 (setWorld w1 s)).
Proof.
  intros E1 E2. unfold needRefresh, bind.
  rewrite (callStatusIsEmpty_eq _ _ _ _ E1); cbn.
  by rewrite (callGet_eq _ _ (setWorld w1 s) _ _ _ E2).
Qed.

Lemma needRefresh_get_ok x s w1 freshItem w2 b w3 :
  StatusIsEmpty (Some x) (world s) = (true, w1) ->
  Get (GetNamespace x) (GetName x) GetOptions_zero w1
  = ((freshItem, None), w2) ->
  StatusIsEmpty freshItem w2 = (b, w3) ->
  needRefresh (Some x) s
  = Ok (negb b, None)
       (setWorld w3
          (afterGet (GetNamespace x) (GetName x) freshItem None w2
                    (setWorld w1 s))).
Proof.
  intros E1 E2 E3. unfold needRefresh, bind.
  rewrite (callStatusIsEmpty_eq _ _ _ _ E1); cbn.
  rewrite (callGet_eq _ _ (setWorld w1 s) _ _ _ E2); cbn.
  unfold callStatusIsEmpty; cbn. by rewrite E3.
Qed.

(** A nil item that the lister reports as empty makes the detector
    panic before any [Get] is issued. *)
Lemma needRefresh_nil_empty s w :
  StatusIsEmpty None (world s) = (true, w) ->
  exists msg, needRefresh None s = Panic msg.
Proof.
  intros E. unfold needRefresh, bind.
  rewrite (callStatusIsEmpty_eq _ _ _ _ E); cbn. eauto.
Qed.

(** On an allocated item the detector always answers; it adds at most
    one call, a [Get], to the history and nothing to the log. *)
Lemma needRefresh_total x s :
  exists r s', needRefresh (Some x) s = Ok r s'
               /\ getsOnly 1 s s' /\ logs s' = logs s.
Proof.
  destruct (StatusIsEmpty (Some x) (world s)) as [[|] w1] eqn:E1.
  - destruct (Get (GetNamespace x) (GetName x) GetOptions_zero w1)
      as [[res [e|]] w2] eqn:E2.
    + eexists _, _. split; [by apply needRefresh_get_failed|].
      split; [|done]. eexists [_]. split; [done|]. split; [by repeat constructor | cbn; lia].
    + destruct (StatusIsEmpty res w2) as [b w3] eqn:E3.
      eexists _, _. split; [by eapply needRefresh_get_ok|].
      split; [|done]. eexists [_]. split; [done|]. split; [by repeat constructor | cbn; lia].
  - eexists _, _. split; [by apply needRefresh_populated|].
    split; [by apply getsOnly_same | done].
Qed.

(** The scan always ends; it adds at most one [Get] call per item to
    the history. *)
Lemma scanItems_total namespace options items s :
  exists b s', scanItems namespace options items s = Ok b s'
               /\ getsOnly (length items) s s'.
Proof.
  revert s. induction items as [|x rest IH]; intros s; cbn [scanItems length].
  - eexists _, _. split; [done | by apply getsOnly_same].
  - destruct (needRefresh_total x s)
      as ([refresh refreshErr] & s1 & E & G & _).
    unfold bind at 1. rewrite E.
    destruct (refresh || negb (isNil refreshErr)).
    + eexists _, _. split; [done|].
      eapply (getsOnly_mono 1); [lia|].
      destruct G as (g & Eg & Fg & Lg). by exists g.
    + destruct (IH s1) as (b & s2 & E2 & G2).
      eexists _, _. split; [exact E2|].
      apply (getsOnly_trans 1 (length rest) s s1 s2); done.
Qed.

Lemma quietScan_gets items s s' :
  quietScan items s = Some s' -> getsOnly (length items) s s'.
Proof.
  revert s. induction items as [|x rest IH]; intros s; cbn [quietScan length].
  - intros [= ->]. by apply getsOnly_same.
  - destruct (needRefresh_total x s) as (r & s1 & E & G & _). rewrite E.
    destruct r as [[|] [e|]]; try done.
    intros Hq. apply (getsOnly_trans 1 (length rest) s s1 s'); auto.
Qed.

Lemma scanItems_quiet namespace options pre rest s s' :
  quietScan pre s = Some s' ->
  scanItems namespace options (pre ++ rest) s
  = scanItems namespace options rest s'.
Proof.
  revert s. induction pre as [|x pre IH]; intros s; cbn.
  - by intros [= ->].
  - unfold bind at 1.
    destruct (needRefresh (Some x) s) as [[[|] [e|]] s1|msg]; try done.
    cbn. apply IH.
Qed.

Lemma scanItems_hit namespace options x rest s refresh refreshErr s' :
  needRefresh (Some x) s = Ok (refresh, refreshErr) s' ->
  refresh = true \/ refreshErr <> None ->
  scanItems namespace options (x :: rest) s
  = Ok true
       (afterLog (LogDetected namespace options (GetName x)
                              (GetNamespace x) refreshErr) s').
Proof.
  intros E Hhit. cbn. unfold bind at 1. rewrite E.
  assert (refresh || negb (isNil refreshErr) = true) as ->; [|done].
  destruct Hhit as [->|Hne]; [done|].
  destruct refreshErr; [by rewrite orb_true_r | done].
Qed.

Lemma quietScan_logs_eq items s s' :
  quietScan items s = Some s' -> logs s' = logs s.
Proof.
  revert s. induction items as [|x rest IH]; intros s; cbn [quietScan].
  - by intros [= ->].
  - destruct (needRefresh_total x s) as (r & s1 & E & _ & El). rewrite E.
    destruct r as [[|] [e|]]; try done.
    intros Hq. by rewrite (IH _ Hq).
Qed.

(** ** The orchestrator, path by path *)

Lemma checked_true memo namespace :
  checked memo namespace = true <-> entry memo namespace = Some true.
Proof.
  unfold checked. destruct (entry memo namespace) as [[|]|]; cbn;
    split; congruence.
Qed.

Lemma checked_empty namespace : checked (Some ∅) namespace = false.
Proof. unfold checked, entry. by rewrite lookup_empty. Qed.

Lemma checked_allocated memo namespace :
  checked memo namespace = true ->
  exists m, memo = Some m /\ m !! namespace = Some true.
Proof.
  intros Hc. apply checked_true in Hc. destruct memo as [m|]; [|done].
  by exists m.
Qed.

Lemma fetch_list_failed namespace options memo s runs e w :
  List namespace options (world s) = ((runs, Some e), w) ->
  fetchOrRefreshList namespace options memo s
  = Ok (NilObject, Some e, memo) (afterList namespace options runs (Some e) w s).
Proof.
  intros E. unfold fetchOrRefreshList, bind.
  by rewrite (callList_eq _ _ _ _ _ _ E).
Qed.

Lemma fetch_checked namespace options memo s runs w :
  List namespace options (world s) = ((runs, None), w) ->
  checked memo namespace = true ->
  fetchOrRefreshList namespace options memo s
  = Ok (ObjectOf runs, None, memo) (afterList namespace options runs None w s).
Proof.
  intros E Hc. unfold fetchOrRefreshList, bind.
  rewrite (callList_eq _ _ _ _ _ _ E). cbn -[checked]. by rewrite Hc.
Qed.

Lemma fetch_no_refresh namespace options m s runs w1 items w2 s3 :
  List namespace options (world s) = ((runs, None), w1) ->
  checked (Some m) namespace = false ->
  GetItems runs w1 = (items, w2) ->
  scanItems namespace options items
            (setWorld w2 (afterList namespace options runs None w1 s))
  = Ok false s3 ->
  fetchOrRefreshList namespace options (Some m) s
  = Ok (ObjectOf runs, None, Some (<[namespace := true]> m)) s3.
Proof.
  intros E Hc Ei Es. unfold fetchOrRefreshList, bind.
  rewrite (callList_eq _ _ _ _ _ _ E). cbn -[checked]. rewrite Hc.
  rewrite (callGetItems_eq runs (afterList namespace options runs None w1 s)
                           items w2 Ei).
  by rewrite Es.
Qed.

Lemma fetch_refresh namespace options m s runs w1 items w2 s3
      runs' err' w4 :
  List namespace options (world s) = ((runs, None), w1) ->
  checked (Some m) namespace = false ->
  GetItems runs w1 = (items, w2) ->
  scanItems namespace options items
            (setWorld w2 (afterList namespace options runs None w1 s))
  = Ok true s3 ->
  List namespace (setResourceVersion "" options) (world s3)
  = ((runs', err'), w4) ->
  fetchOrRefreshList namespace options (Some m) s
  = Ok (ObjectOf runs', err',
        Some (if isNil err' then <[namespace := true]> m else m))
       (afterLog (LogRefreshed namespace err')
          (afterList namespace (setResourceVersion "" options)
                     runs' err' w4 s3)).
Proof.
  intros E Hc Ei Es E'. unfold fetchOrRefreshList, bind.
  rewrite (callList_eq _ _ _ _ _ _ E). cbn -[checked]. rewrite Hc.
  rewrite (callGetItems_eq runs (afterList namespace options runs None w1 s)
                           items w2 Ei).
  rewrite Es, DeepCopy_id.
  rewrite (callList_eq _ _ _ _ _ _ E'). cbn.
  by destruct err'.
Qed.

(** On the nil map a call that gets as far as the assignment panics. *)
Lemma fetch_no_refresh_nil namespace options s runs w1 items w2 s3 :
  List namespace options (world s) = ((runs, None), w1) ->
  GetItems runs w1 = (items, w2) ->
  scanItems namespace options items
            (setWorld w2 (afterList namespace options runs None w1 s))
  = Ok false s3 ->
  fetchOrRefreshList namespace options None s
  = Panic "assignment to entry in nil map".
Proof.
  intros E Ei Es. unfold fetchOrRefreshList, bind.
  rewrite (callList_eq _ _ _ _ _ _ E). cbn.
  rewrite (callGetItems_eq runs (afterList namespace options runs None w1 s)
                           items w2 Ei).
  by rewrite Es.
Qed.

Lemma fetch_refresh_nil namespace options s runs w1 items w2 s3
      runs' err' w4 :
  List namespace options (world s) = ((runs, None), w1) ->
  GetItems runs w1 = (items, w2) ->
  scanItems namespace options items
            (setWorld w2 (afterList namespace options runs None w1 s))
  = Ok true s3 ->
  List namespace (setResourceVersion "" options) (world s3)
  = ((runs', err'), w4) ->
  fetchOrRefreshList namespace options None s
  = if isNil err' then Panic "assignment to entry in nil map"
    else Ok (ObjectOf runs', err', None)
            (afterLog (LogRefreshed namespace err')
               (afterList namespace (setResourceVersion "" options)
                          runs' err' w4 s3)).
Proof.
  intros E Ei Es E'. unfold fetchOrRefreshList, bind.
  rewrite (callList_eq _ _ _ _ _ _ E). cbn.
  rewrite (callGetItems_eq runs (afterList namespace options runs None w1 s)
                           items w2 Ei).
  rewrite Es, DeepCopy_id.
  rewrite (callList_eq _ _ _ _ _ _ E'). cbn.
  by destruct err'.
Qed.

(** Every call on an allocated memo returns, and what it did has one of
    three shapes: the first [List] alone, the first [List] and the scan,
    or these and the second [List] without a version token. *)
Lemma fetch_shape namespace options m s :
  exists runs err w1 obj err' s' gets tail,
    List namespace options (world s) = ((runs, err), w1)
    /\ fetchOrRefreshList namespace options (Some m) s
       = Ok (obj, err',
             Some (if isNil err' then <[namespace := true]> m else m)) s'
    /\ calls s' = calls s ++ CList namespace options runs err :: gets ++ tail
    /\ Forall (fun c => isGet c = true) gets
    /\ (tail = [] /\ err' = err
        \/ exists runs', tail = [CList namespace (setResourceVersion "" options)
                                       runs' err']).
Proof.
  destruct (List namespace options (world s)) as [[runs [e|]] w1] eqn:E.
  - eexists runs, (Some e), w1, _, (Some e), _, [], [].
    split; [done|]. split; [by apply fetch_list_failed|].
    split; [done|]. split; [constructor | by left].
  - destruct (checked (Some m) namespace) eqn:Hc.
    + eexists runs, None, w1, _, None, _, [], [].
      split; [done|]. split.
      * rewrite (fetch_checked _ _ _ _ _ _ E Hc). cbn.
        apply checked_true in Hc. cbn in Hc. by rewrite (insert_id _ _ _ Hc).
      * split; [done|]. split; [constructor | by left].
    + destruct (GetItems runs w1) as [items w2] eqn:Ei.
      destruct (scanItems_total namespace options items
                  (setWorld w2 (afterList namespace options runs None w1 s)))
        as ([|] & s3 & Es & (g & Eg & Fg & _)).
      * destruct (List namespace (setResourceVersion "" options) (world s3))
          as [[runs' err'] w4] eqn:E'.
        eexists runs, None, w1, _, err', _, g, [_].
        split; [done|]. split; [by eapply fetch_refresh|].
        split; [|split; [done | right; by eexists]].
        cbn. rewrite Eg. cbn. by rewrite <- !app_assoc.
      * eexists runs, None, w1, _, None, _, g, [].
        split; [done|]. split; [by eapply fetch_no_refresh|].
        split; [|split; [done | by left]].
        rewrite Eg. cbn. by rewrite <- !app_assoc, app_nil_r.
Qed.

(** The nil map against the empty one: a call on the nil map does what
    the call on the empty map does, except that it panics where that one
    marks the namespace, which is wherever that one returns no error. *)
Lemma fetch_nil_map namespace options s :
  match fetchOrRefreshList namespace options (Some ∅) s with
  | Ok (obj, err, _) s' =>
      if isNil err then
        fetchOrRefreshList namespace options None s
        = Panic "assignment to entry in nil map"
      else
        fetchOrRefreshList namespace options None s = Ok (obj, err, None) s'
  | Panic _ => False
  end.
Proof.
  destruct (List namespace options (world s)) as [[runs [e|]] w1] eqn:E.
  - rewrite !(fetch_list_failed _ _ _ _ _ _ _ E). done.
  - destruct (GetItems runs w1) as [items w2] eqn:Ei.
    destruct (scanItems_total namespace options items
                (setWorld w2 (afterList namespace options runs None w1 s)))
      as ([|] & s3 & Es & _).
    + destruct (List namespace (setResourceVersion "" options) (world s3))
        as [[runs' err'] w4] eqn:E'.
      rewrite (fetch_refresh _ _ ∅ _ _ _ _ _ _ _ _ _ E (checked_empty _) Ei Es E').
      rewrite (fetch_refresh_nil _ _ _ _ _ _ _ _ _ _ _ E Ei Es E').
      by destruct err'.
    + rewrite (fetch_no_refresh _ _ ∅ _ _ _ _ _ _ E (checked_empty _) Ei Es). cbn.
      by eapply fetch_no_refresh_nil.
Qed.

(** ** The claims on the detector *)

(** C2: [needRefresh] answers [(false, nil)] without issuing a [Get]
    when [StatusIsEmpty] of the item is false; when it is true and the
    direct [Get] succeeds with [freshItem], the answer is
    [(not StatusIsEmpty(freshItem), nil)], after that one [Get]. *)
Theorem needRefresh_answer :
  (forall item s w,
      StatusIsEmpty item (world s) = (false, w) ->
      needRefresh item s = Ok (false, None) (setWorld w s)
      /\ calls (setWorld w s) = calls s)
  /\ (forall x s w1 freshItem w2 b w3,
         StatusIsEmpty (Some x) (world s) = (true, w1) ->
         Get (GetNamespace x) (GetName x) GetOptions_zero w1
         = ((freshItem, None), w2) ->
         StatusIsEmpty freshItem w2 = (b, w3) ->
         needRefresh (Some x) s
         = Ok (negb b, None)
              (setWorld w3
                 (afterGet (GetNamespace x) (GetName x) freshItem None w2
                           (setWorld w1 s)))).
Proof.
  split.
  - intros item s w E. split; [by apply needRefresh_populated | done].
  - intros x s w1 freshItem w2 b w3 E1 E2 E3. by eapply needRefresh_get_ok.
Qed.

(** C4: for an item whose listed status is empty, a direct [Get] for
    the item's namespace and name that fails with an error, whatever the
    error, makes [needRefresh] answer [(true, that error)]. *)
Theorem needRefresh_get_error x s w1 res e w2 :
  StatusIsEmpty (Some x) (world s) = (true, w1) ->
  Get (GetNamespace x) (GetName x) GetOptions_zero w1 = ((res, Some e), w2) ->
  needRefresh (Some x) s
  = Ok (true, Some e)
       (afterGet (GetNamespace x) (GetName x) res (Some e) w2 (setWorld w1 s)).
Proof. apply needRefresh_get_failed. Qed.

(** ** The claims on the orchestrator *)

(** C1: for an allocated memo that does not mark the namespace, when
    the first [List] succeeds and [x] is the first item for which
    [needRefresh] answers true or an error, the scan stops at [x]: the
    history holds the first [List], at most one [Get] per item up to
    [x], and then only the second [List]; that one is made with options
    [ops] whose version token is empty and whose other fields are the
    caller's; what it answered, list and error, is what the call
    returns, and the namespace is marked when it succeeded. *)
Theorem refresh_at_first_divergence namespace options m s runs w1
        pre x post w2 s2 refresh refreshErr s3 ops runs' err' w4 :
  checked (Some m) namespace = false ->
  List namespace options (world s) = ((runs, None), w1) ->
  GetItems runs w1 = (pre ++ x :: post, w2) ->
  quietScan pre (setWorld w2 (afterList namespace options runs None w1 s))
  = Some s2 ->
  needRefresh (Some x) s2 = Ok (refresh, refreshErr) s3 ->
  refresh = true \/ refreshErr <> None ->
  clearedFrom options ops ->
  List namespace ops (world s3) = ((runs', err'), w4) ->
  let m' := if isNil err' then <[namespace := true]> m else m in
  let relist := CList namespace ops runs' err' in
  exists gets s',
    fetchOrRefreshList namespace options (Some m) s
    = Ok (ObjectOf runs', err', Some m') s'
    /\ calls s3 = calls s ++ CList namespace options runs None :: gets
    /\ Forall (fun c => isGet c = true) gets
    /\ length gets <= length pre + 1
    /\ calls s' = calls s3 ++ [relist]
    /\ ResourceVersion ops = ""
    /\ world s' = w4
    /\ (err' = None -> m' !! namespace = Some true).
Proof.
  intros Hc E Ei Hq En Hhit Hops E' m' relist.
  pose proof (clearedFrom_unique _ _ Hops) as Eops.
  rewrite DeepCopy_id in Eops. subst ops.
  pose proof (quietScan_gets _ _ _ Hq) as G1.
  destruct (needRefresh_total x s2) as (r & s3' & En' & G2 & _).
  rewrite En in En'. injection En' as <- <-.
  destruct (getsOnly_trans _ _ _ _ _ G1 G2) as (g & Eg & Fg & Lg).
  set (s3' := afterLog (LogDetected namespace options (GetName x)
                                    (GetNamespace x) refreshErr) s3).
  exists g, (afterLog (LogRefreshed namespace err')
               (afterList namespace (setResourceVersion "" options)
                          runs' err' w4 s3')).
  split.
  - eapply fetch_refresh; [exact E | exact Hc | exact Ei | | exact E'].
    rewrite (scanItems_quiet _ _ _ _ _ _ Hq).
    by apply (scanItems_hit _ _ _ _ _ refresh).
  - split; [|split; [done|split; [done|split; [done|split; [done|split; [done|]]]]]].
    + rewrite Eg. cbn. by rewrite <- app_assoc.
    + intros ->. subst m'. cbn. apply lookup_insert_eq.
Qed.

(** C5: an error of a direct fetch made during the scan is not what
    the call returns.  On an allocated memo every call returns, and the
    error it returns is the error, possibly nil, that its last [List]
    call answered.  And when the first item whose check does not pass is
    one whose direct [Get] fails with an error [e], that error does no
    more than trigger the refresh: the second [List] is made, the call
    returns what it answered, list and error, and [e] is found in the
    log line of the detection alone. *)
Theorem returned_error_is_last_list_error namespace options m s :
  (exists obj err memo' s' new,
      fetchOrRefreshList namespace options (Some m) s
      = Ok (obj, err, memo') s'
      /\ calls s' = calls s ++ new
      /\ lastListErr new = Some err)
  /\ (forall runs w1 pre x post w2 s2 w3 res e w4 ops runs' err' w5,
         checked (Some m) namespace = false ->
         List namespace options (world s) = ((runs, None), w1) ->
         GetItems runs w1 = (pre ++ x :: post, w2) ->
         quietScan pre
                   (setWorld w2 (afterList namespace options runs None w1 s))
         = Some s2 ->
         StatusIsEmpty (Some x) (world s2) = (true, w3) ->
         Get (GetNamespace x) (GetName x) GetOptions_zero w3
         = ((res, Some e), w4) ->
         clearedFrom options ops ->
         List namespace ops w4 = ((runs', err'), w5) ->
         exists s',
           fetchOrRefreshList namespace options (Some m) s
           = Ok (ObjectOf runs', err',
                 Some (if isNil err' then <[namespace := true]> m else m)) s'
           /\ calls s'
              = calls s2
                ++ [CGet (GetNamespace x) (GetName x) GetOptions_zero
                         res (Some e);
                    CList namespace ops runs' err']
           /\ logs s'
              = logs s
                ++ [LogDetected namespace options (GetName x)
                                (GetNamespace x) (Some e);
                    LogRefreshed namespace err']).
Proof.
  split.
  - destruct (fetch_shape namespace options m s)
      as (runs & err & w1 & obj & err' & s' & gets & tail
          & E & Ef & Ec & Fg & Ht).
    eexists obj, err', _, s', _. split; [exact Ef|]. split; [exact Ec|].
    destruct Ht as [[-> ->]|[runs' ->]].
    + rewrite app_nil_r.
      change (CList namespace options runs err :: gets)
        with ([CList namespace options runs err] ++ gets).
      by rewrite lastListErr_app_gets.
    + rewrite app_comm_cons. apply lastListErr_app_list.
  - intros runs w1 pre x post w2 s2 w3 res e w4 ops runs' err' w5
           Hc E Ei Hq E1 E2 Hops E'.
    pose proof (clearedFrom_unique _ _ Hops) as Eops.
    rewrite DeepCopy_id in Eops. subst ops.
    pose proof (needRefresh_get_failed _ _ _ _ _ _ E1 E2) as En.
    set (s3 := afterLog (LogDetected namespace options (GetName x)
                                     (GetNamespace x) (Some e))
                 (afterGet (GetNamespace x) (GetName x) res (Some e) w4
                           (setWorld w3 s2))).
    exists (afterLog (LogRefreshed namespace err')
              (afterList namespace (setResourceVersion "" options)
                         runs' err' w5 s3)).
    split.
    + apply (fetch_refresh _ _ _ _ _ _ _ _ s3 _ _ _ E Hc Ei); [|exact E'].
      rewrite (scanItems_quiet _ _ _ _ _ _ Hq).
      apply (scanItems_hit _ _ _ _ _ true (Some e)); [exact En | by right].
    + split; [cbn; by rewrite <- app_assoc|].
      cbn. rewrite (quietScan_logs_eq _ _ _ Hq). cbn.
      by rewrite <- app_assoc.
Qed.

(** C6: on an allocated memo, the memo after a call is the memo before
    it with the namespace set to true when the last [List] call of the
    call answered no error, and the memo before it, untouched, when that
    [List] answered an error, which is then the error returned.  On any
    memo, a failing first [List] ends the call at once, with no [Get]
    call and the memo as it was. *)
Theorem memo_set_iff_final_list_ok namespace options s :
  (forall m,
      exists obj err s' new,
        fetchOrRefreshList namespace options (Some m) s
        = Ok (obj, err,
              Some (if isNil err then <[namespace := true]> m else m)) s'
        /\ calls s' = calls s ++ new
        /\ lastListErr new = Some err)
  /\ (forall memo runs e w,
         List namespace options (world s) = ((runs, Some e), w) ->
         fetchOrRefreshList namespace options memo s
         = Ok (NilObject, Some e, memo)
              (afterList namespace options runs (Some e) w s)).
Proof.
  split; [|intros memo runs e w E; by apply fetch_list_failed].
  intros m.
  destruct (fetch_shape namespace options m s)
    as (runs & err & w1 & obj & err' & s' & gets & tail
        & E & Ef & Ec & Fg & Ht).
  eexists obj, err', s', _. split; [exact Ef|]. split; [exact Ec|].
  destruct Ht as [[-> ->]|[runs' ->]].
  - rewrite app_nil_r.
    change (CList namespace options runs err :: gets)
      with ([CList namespace options runs err] ++ gets).
    by rewrite lastListErr_app_gets.
  - rewrite app_comm_cons. apply lastListErr_app_list.
Qed.

(** C7: on a namespace that the memo marks, a call makes its one
    [List] call and no [Get] call, scans nothing and writes nothing;
    when that [List] answered no error, the listed object is returned as
    it is.  (When it answered an error, the call has ended before the
    memo is read, with the nil object next to the error.) *)
Theorem checked_namespace_single_list namespace options memo s runs err w :
  checked memo namespace = true ->
  List namespace options (world s) = ((runs, err), w) ->
  fetchOrRefreshList namespace options memo s
  = Ok (if isNil err then ObjectOf runs else NilObject, err, memo)
       (afterList namespace options runs err w s)
  /\ listCalls [CList (T := T) namespace options runs err] = 1
  /\ getCalls [CList (T := T) namespace options runs err] = 0.
Proof.
  intros Hc E. split; [|done].
  destruct err as [e|]; cbn.
  - by apply fetch_list_failed.
  - by apply fetch_checked.
Qed.

(** C8: the memo only grows towards true.  Through any sequence of
    calls, whatever they list and whether they fail, a namespace that is
    marked stays marked, and every entry of the memo afterwards is the
    entry it was or true: no entry is deleted or set to false. *)
Theorem memo_monotonic reqs memo s namespace :
  checked memo namespace = true ->
  exists memo' s',
    fetchMany reqs memo s = Ok memo' s'
    /\ checked memo' namespace = true
    /\ forall k, entry memo' k = entry memo k \/ entry memo' k = Some true.
Proof.
  intros Hc. destruct (checked_allocated _ _ Hc) as (m & -> & _).
  revert m s Hc. induction reqs as [|[ns options] rest IH]; intros m s Hc.
  - exists (Some m), s. cbn. auto.
  - destruct (fetch_shape ns options m s)
      as (_ & _ & _ & obj & err' & s1 & _ & _ & _ & Ef & _).
    set (m1 := if isNil err' then <[ns := true]> m else m) in *.
    assert (forall k, m1 !! k = m !! k \/ m1 !! k = Some true) as Hstep.
    { intros k. subst m1. destruct (isNil err'); [|by left].
      destruct (decide (ns = k)) as [->|Hne].
      - right. apply lookup_insert_eq.
      - left. by apply lookup_insert_ne. }
    assert (checked (Some m1) namespace = true) as Hc1.
    { apply checked_true. apply checked_true in Hc. cbn in *.
      destruct (Hstep namespace) as [->| ->]; done. }
    destruct (IH m1 s1 Hc1) as (memo' & s' & Em & Hc' & Hk).
    exists memo', s'. split.
    + cbn. unfold bind at 1. rewrite Ef. exact Em.
    + split; [exact Hc'|]. intros k.
      destruct (Hk k) as [Ek|Ek]; [|by right].
      rewrite Ek. cbn. apply Hstep.
Qed.

(** C10: a call for one namespace on an allocated memo leaves the memo
    entry of every other namespace as it was, and it lists with the
    caller's options only: its first call is the [List] for that
    namespace with the options as given, and any [List] after it is for
    that namespace with options whose version token is empty and whose
    other fields are the caller's. *)
Theorem only_own_entry_written namespace options m s other :
  other <> namespace ->
  exists obj err m' s' first rest,
    fetchOrRefreshList namespace options (Some m) s
    = Ok (obj, err, Some m') s'
    /\ m' !! other = m !! other
    /\ calls s' = calls s ++ first :: rest
    /\ (exists runs e, first = CList namespace options runs e)
    /\ Forall (relistOf namespace options) rest.
Proof.
  intros Hne.
  destruct (fetch_shape namespace options m s)
    as (runs & err & w1 & obj & err' & s' & gets & tail
        & E & Ef & Ec & Fg & Ht).
  eexists obj, err', _, s', _, _. split; [exact Ef|].
  split; [|split; [exact Ec|split; [by eexists _, _|]]].
  - destruct (isNil err'); [|done]. by apply lookup_insert_ne.
  - apply Forall_app. split.
    + eapply Forall_impl; [exact Fg|]. intros [] Hg; [discriminate | done].
    + destruct Ht as [[-> _]|[runs' ->]]; [constructor|].
      constructor; [|constructor]. cbn. split; [done|].
      apply clearedFrom_setResourceVersion.
Qed.

End ProtocolFacts.

(** ** The adapters *)

(** C3, as stated, fails: neither adapter answers true for a nil run. *)
Lemma StatusIsEmpty_nil_is_not_true :
  TaskRunLister.StatusIsEmpty None <> true
  /\ PipelineRunLister.StatusIsEmpty None <> true.
Proof. split; discriminate. Qed.

(** C3, as the code has it: for both adapters [StatusIsEmpty] of a nil
    run is false, by the guard [run != nil]; for an allocated run it is
    true exactly when no start time, or the zero time, is recorded. *)
Theorem StatusIsEmpty_nil_is_false :
  TaskRunLister.StatusIsEmpty None = false
  /\ PipelineRunLister.StatusIsEmpty None = false
  /\ (forall r, TaskRunLister.StatusIsEmpty (Some r)
                = IsZero (TaskRunStartTime (TaskRunStatusOf r)))
  /\ (forall r, PipelineRunLister.StatusIsEmpty (Some r)
                = IsZero (PipelineRunStartTime (PipelineRunStatusOf r))).
Proof. repeat split. Qed.

(** With that guard the detector never reaches through a nil item: for
    the adapters it answers [(false, nil)] at once, with no [Get]. *)
Lemma needRefresh_nil_TaskRun (C : Type) (t : TaskRunLister.t C)
      (s : State C TaskRun TaskRunList) :
  @needRefresh _ _ _ (TaskRunLister.lister t) _ None s = Ok (false, None) s.
Proof. by destruct s. Qed.

Lemma needRefresh_nil_PipelineRun (C : Type) (p : PipelineRunLister.t C)
      (s : State C PipelineRun PipelineRunList) :
  @needRefresh _ _ _ (PipelineRunLister.lister p) _ None s
  = Ok (false, None) s.
Proof. by destruct s. Qed.

(** C9: for both adapters [GetItems] of a nil list is the empty
    sequence, and the call does not fail: as a method of the lister it
    returns, leaving every state as it found it. *)
Theorem GetItems_nil_is_empty :
  TaskRunLister.GetItems None = []
  /\ PipelineRunLister.GetItems None = []
  /\ (forall (C : Type) (t : TaskRunLister.t C)
             (s : State C TaskRun TaskRunList),
         @callGetItems _ _ _ (TaskRunLister.lister t) None s = Ok [] s)
  /\ (forall (C : Type) (p : PipelineRunLister.t C)
             (s : State C PipelineRun PipelineRunList),
         @callGetItems _ _ _ (PipelineRunLister.lister p) None s = Ok [] s).
Proof.
  split; [done|]. split; [done|]. split; intros C l s; by destruct s.
Qed.

(** ** The tests of the test file, replayed *)

Section Replay.

Import testLister.

Lemma TestFetchOrRefreshList_HitCache :
  replay [Some noStatus] noStatusItems (Some {[ namespace := true ]})
  = Some (0, 1, true, 0, 1).
Proof. reflexivity. Qed.

Lemma TestFetchOrRefreshList_MissCacheHasStatus :
  replay [Some noStatus; Some hasStatus] hasStatusItems (Some ∅)
  = Some (0, 1, true, 0, 1).
Proof. reflexivity. Qed.

Lemma TestFetchOrRefreshList_MissCacheNoStatus :
  replay [Some noStatus; Some hasStatus] noStatusItems (Some ∅)
  = Some (2, 2, true, 2, 2).
Proof. reflexivity. Qed.

End Replay.

(** ** The claims at concrete inputs *)

Section Instances.

Import testLister.

(** Three runs listed without status from a cache read with the version
    token "0"; the direct fetch of the first has no status either, that
    of the second has one: the third is never fetched, and the second
    [List] goes out with the empty token. *)
Lemma refresh_at_first_divergence_witness :
  exists s',
    fetchOrRefreshList (H := fake.taskRuns) "ns" fake.cachedRead (Some ∅)
      (fake.start fake.lagging)
    = Ok (ObjectOf (Some {| TaskRunItems :=
                              [fake.waiting; fake.fresh; fake.later] |}),
          None, Some (<["ns" := true]> ∅)) s'
    /\ calls s'
       = [CList "ns" fake.cachedRead
                (Some {| TaskRunItems :=
                           [fake.waiting; fake.stale; fake.later] |}) None;
          CGet "ns" "taskrun0" GetOptions_zero (Some fake.waiting) None;
          CGet "ns" "taskrun1" GetOptions_zero (Some fake.fresh) None;
          CList "ns" ListOptions_zero
                (Some {| TaskRunItems :=
                           [fake.waiting; fake.fresh; fake.later] |}) None]
    /\ ResourceVersion fake.cachedRead = "0".
Proof.
  edestruct (refresh_at_first_divergence (H := fake.taskRuns) "ns"
               fake.cachedRead ∅ (fake.start fake.lagging))
    with (pre := [fake.waiting]) (x := fake.stale) (post := [fake.later])
         (ops := ListOptions_zero)
    as (gets & s' & Ef & _ & _ & _ & Ec & _);
    [vm_compute; reflexivity | vm_compute; reflexivity
     | vm_compute; reflexivity | vm_compute; reflexivity
     | vm_compute; reflexivity | left; reflexivity
     | vm_compute; repeat split | vm_compute; reflexivity |].
  exists s'. split; [exact Ef|]. split; [|reflexivity].
  rewrite Ec. vm_compute; reflexivity.
Defined.

Lemma needRefresh_answer_witness :
  needRefresh (Some hasStatus) (start (new [] []))
  = Ok (false, None)
       (setWorld (snd (StatusIsEmpty (Some hasStatus) (new [] [])))
                 (start (new [] [])))
  /\ exists s',
      needRefresh (Some noStatus) (start (new [Some hasStatus] [])) = Ok (true, None) s'
      /\ getCalls (calls s') = 1.
Proof.
  destruct (needRefresh_answer (H := lister)) as [Ha Hb]. split.
  - apply (Ha (Some hasStatus) (start (new [] []))). reflexivity.
  - eexists. split.
    + eapply (Hb noStatus (start (new [Some hasStatus] [])) _ _ _ false);
        vm_compute; reflexivity.
    + vm_compute; reflexivity.
Defined.

(** A run that the cache still lists after it was deleted from [etcd]:
    the direct fetch fails with "not found". *)
Lemma needRefresh_get_error_witness :
  exists s',
    needRefresh (H := fake.taskRuns) (Some fake.stale)
      (fake.start {| fake.cache := [fake.stale]; fake.etcd := [];
                     fake.down := false |})
    = Ok (true, Some "not found") s'
    /\ calls s' = [CGet "ns" "taskrun1" GetOptions_zero
                        (Some emptyTaskRun) (Some "not found")].
Proof.
  eexists. split.
  - eapply (needRefresh_get_error (H := fake.taskRuns) fake.stale
              (fake.start {| fake.cache := [fake.stale]; fake.etcd := [];
                             fake.down := false |}));
      vm_compute; reflexivity.
  - vm_compute; reflexivity.
Defined.

(** The second of three listed runs was deleted from [etcd]: its direct
    fetch fails with "not found", the second [List] succeeds, and the
    call returns no error; "not found" is in the log alone. *)
Lemma returned_error_is_last_list_error_witness :
  exists s',
    fetchOrRefreshList (H := fake.taskRuns) "ns" fake.cachedRead (Some ∅)
      (fake.start fake.outdated)
    = Ok (ObjectOf (Some {| TaskRunItems := [fake.waiting; fake.later] |}),
          None, Some (<["ns" := true]> ∅)) s'
    /\ logs s' = [LogDetected "ns" fake.cachedRead "taskrun1" "ns"
                              (Some "not found");
                  LogRefreshed "ns" None]
    /\ getCalls (calls s') = 2
    /\ listCalls (calls s') = 2.
Proof.
  edestruct (proj2 (returned_error_is_last_list_error (H := fake.taskRuns)
                      "ns" fake.cachedRead ∅ (fake.start fake.outdated)))
    with (pre := [fake.waiting]) (x := fake.stale) (post := [fake.later])
         (ops := ListOptions_zero)
    as (s' & Ef & Ec & El);
    [vm_compute; reflexivity | vm_compute; reflexivity
     | vm_compute; reflexivity | vm_compute; reflexivity
     | vm_compute; reflexivity | vm_compute; reflexivity
     | vm_compute; repeat split | vm_compute; reflexivity |].
  exists s'. split; [exact Ef|]. split; [exact El|].
  rewrite Ec. split; vm_compute; reflexivity.
Defined.

(** A first [List] that fails, on the nil map. *)
Lemma memo_set_iff_final_list_ok_witness :
  exists s',
    fetchOrRefreshList (H := fake.taskRuns) "ns" fake.cachedRead None
      (fake.start {| fake.cache := [fake.stale]; fake.etcd := [fake.fresh];
                     fake.down := true |})
    = Ok (NilObject,
          Some "the server is currently unable to handle the request", None)
         s'
    /\ getCalls (calls s') = 0
    /\ listCalls (calls s') = 1.
Proof.
  eexists. split.
  - eapply (proj2 (memo_set_iff_final_list_ok (H := fake.taskRuns) "ns"
                     fake.cachedRead
                     (fake.start {| fake.cache := [fake.stale];
                                    fake.etcd := [fake.fresh];
                                    fake.down := true |}))).
    vm_compute; reflexivity.
  - split; vm_compute; reflexivity.
Defined.

(** On the nil map the same stale list cannot be marked: the call
    panics at the assignment. *)
Lemma nil_map_panics_at_the_mark :
  fetchOrRefreshList (H := fake.taskRuns) "ns" fake.cachedRead None
    (fake.start fake.lagging)
  = Panic "assignment to entry in nil map".
Proof. vm_compute; reflexivity. Qed.

(** The scenario of [TestFetchOrRefreshList_HitCache]. *)
Lemma checked_namespace_single_list_witness :
  exists s',
    fetchOrRefreshList namespace ListOptions_zero
      (Some {[ namespace := true ]})
      (start (new [Some noStatus] noStatusItems))
    = Ok (ObjectOf (Some {| TaskRunItems := noStatusItems |}), None,
          Some {[ namespace := true ]}) s'
    /\ getCount (world s') = 0
    /\ listCount (world s') = 1.
Proof.
  eexists. split.
  - eapply (fun r w Hc E =>
              proj1 (checked_namespace_single_list (H := lister) namespace
                       ListOptions_zero (Some {[ namespace := true ]})
                       (start (new [Some noStatus] noStatusItems))
                       r None w Hc E));
      vm_compute; reflexivity.
  - split; vm_compute; reflexivity.
Defined.

(** A marked namespace; then a call for it, which the memo lets skip
    the scan of a stale list, a call for another namespace, which gets
    marked, and a call for the first again. *)
Lemma memo_monotonic_witness :
  exists memo' s',
    fetchMany (H := fake.taskRuns)
      [("ns", fake.cachedRead); ("other", fake.cachedRead);
       ("ns", ListOptions_zero)]
      (Some {[ "ns" := true ]})
      (fake.start fake.lagging)
    = Ok memo' s'
    /\ checked memo' "ns" = true
    /\ getCalls (calls s') = 0.
Proof.
  destruct (memo_monotonic (H := fake.taskRuns)
              [("ns", fake.cachedRead); ("other", fake.cachedRead);
               ("ns", ListOptions_zero)]
              (Some {[ "ns" := true ]})
              (fake.start fake.lagging)
              "ns")
    as (memo' & s' & Em & Hc & _); [vm_compute; reflexivity|].
  exists memo', s'. split; [exact Em|]. split; [exact Hc|].
  vm_compute in Em. injection Em as _ <-. vm_compute; reflexivity.
Defined.

(** A refreshing call for "ns" on a memo that holds false for
    "other". *)
Lemma only_own_entry_written_witness :
  exists obj err m' s',
    fetchOrRefreshList (H := fake.taskRuns) "ns" fake.cachedRead
      (Some {[ "other" := false ]})
      (fake.start fake.lagging)
    = Ok (obj, err, Some m') s'
    /\ m' !! "other" = Some false
    /\ listCalls (calls s') = 2.
Proof.
  destruct (only_own_entry_written (H := fake.taskRuns) "ns" fake.cachedRead
              {[ "other" := false ]}
              (fake.start fake.lagging)
              "other")
    as (obj & err & m' & s' & first & rest & Ef & Em & _).
  - discriminate.
  - exists obj, err, m', s'. split; [exact Ef|]. split.
    + rewrite Em. vm_compute; reflexivity.
    + vm_compute in Ef. injection Ef as _ _ _ <-. vm_compute; reflexivity.
Defined.

End Instances.

(** * Further properties of the orchestrator *)

Section OrchestratorBehaviour.

Context {W T L : Type}.
Context `{RefreshLister W T L}.
Context `{Object T}.

Implicit Types s : State W T L.

Lemma getFor_isGet x (c : Call T L) : getFor x c -> isGet c = true.
Proof. by destruct c. Qed.

Lemma getAmong_isGet items (c : Call T L) : getAmong items c -> isGet c = true.
Proof. intros (x & _ & Hx). by eapply getFor_isGet. Qed.

Lemma getAmong_cons_head x rest (c : Call T L) :
  getFor x c -> getAmong (x :: rest) c.
Proof. intros Hc. exists x. split; [apply list_elem_of_here | done]. Qed.

Lemma getAmong_cons_tail x rest (c : Call T L) :
  getAmong rest c -> getAmong (x :: rest) c.
Proof.
  intros (y & Hy & Hc). exists y. split; [by apply list_elem_of_further | done].
Qed.

Lemma listCalls_one namespace options (runs : ptr L) err :
  listCalls [CList (T := T) namespace options runs err] = 1.
Proof. done. Qed.

Lemma getCalls_one namespace options (runs : ptr L) err :
  getCalls [CList (T := T) namespace options runs err] = 0.
Proof. done. Qed.

Lemma getCalls_gets (g : list (Call T L)) :
  Forall (fun c => isGet c = true) g -> getCalls g = length g.
Proof.
  induction 1 as [|c g Hc _ IH]; [done|].
  unfold getCalls in *. rewrite filter_cons.
  case_decide; [cbn; by rewrite IH | done].
Qed.

(** One run of the detector on an allocated item: at most one call, the
    direct fetch of that item, and no log line. *)
Lemma needRefresh_step x s :
  exists r s' g,
    needRefresh (Some x) s = Ok r s'
    /\ calls s' = calls s ++ g
    /\ Forall (getFor x) g
    /\ length g <= 1
    /\ logs s' = logs s.
Proof.
  destruct (StatusIsEmpty (Some x) (world s)) as [[|] w1] eqn:E1.
  - destruct (Get (GetNamespace x) (GetName x) GetOptions_zero w1)
      as [[res [e|]] w2] eqn:E2.
    + eexists _, _, [_]. split; [by apply needRefresh_get_failed|].
      split; [done|]. split; [by repeat constructor|]. split; [cbn; lia | done].
    + destruct (StatusIsEmpty res w2) as [b w3] eqn:E3.
      eexists _, _, [_]. split; [by eapply needRefresh_get_ok|].
      split; [done|]. split; [by repeat constructor|]. split; [cbn; lia | done].
  - eexists _, _, []. split; [by apply needRefresh_populated|].
    split; [cbn; by rewrite app_nil_r|]. split; [constructor|].
    split; [cbn; lia | done].
Qed.

(** One run of the scan: direct fetches of listed items only, at most
    one per item, and one log line exactly when it asks for a refresh. *)
Lemma scanItems_step namespace options items s :
  exists b s' g lg,
    scanItems namespace options items s = Ok b s'
    /\ calls s' = calls s ++ g
    /\ Forall (getAmong items) g
    /\ length g <= length items
    /\ logs s' = logs s ++ lg
    /\ (b = false /\ lg = []
        \/ b = true
           /\ exists x e, x ∈ items
                /\ lg = [LogDetected namespace options (GetName x)
                                     (GetNamespace x) e]).
Proof.
  revert s. induction items as [|x rest IH]; intros s; cbn [scanItems length].
  - exists false, s, [], []. rewrite !app_nil_r.
    split; [done|]. split; [done|]. split; [constructor|].
    split; [cbn; lia|]. split; [done | by left].
  - destruct (needRefresh_step x s)
      as ([refresh refreshErr] & s1 & g1 & E & Ec & Fg & Lg & El).
    unfold bind at 1. rewrite E.
    destruct (refresh || negb (isNil refreshErr)).
    + eexists true, _, g1, [_]. split; [done|]. split; [exact Ec|].
      split; [eapply Forall_impl; [exact Fg | apply getAmong_cons_head]|].
      split; [cbn; lia|]. split; [cbn; by rewrite El|].
      right. split; [done|]. eexists x, _.
      split; [apply list_elem_of_here | done].
    + destruct (IH s1) as (b & s2 & g2 & lg & E2 & Ec2 & Fg2 & Lg2 & El2 & Hb).
      exists b, s2, (g1 ++ g2), lg. split; [exact E2|].
      split; [by rewrite Ec2, Ec, app_assoc|].
      split.
      { apply Forall_app. split.
        - eapply Forall_impl; [exact Fg | apply getAmong_cons_head].
        - eapply Forall_impl; [exact Fg2 | apply getAmong_cons_tail]. }
      split; [rewrite length_app; cbn; lia|].
      split; [by rewrite El2, El|].
      destruct Hb as [[-> ->]|[-> (y & e & Hy & ->)]]; [by left|].
      right. split; [done|]. exists y, e.
      split; [by apply list_elem_of_further | done].
Qed.

Lemma listedItems_eq namespace options s runs err w1 :
  List namespace options (world s) = ((runs, err), w1) ->
  listedItems namespace options s = fst (GetItems runs w1).
Proof. intros E. unfold listedItems. by rewrite E. Qed.

(** Everything one call on an allocated memo does. *)
Lemma fetch_full namespace options m s :
  exists runs err w1 obj err' s' gets tail lg,
    List namespace options (world s) = ((runs, err), w1)
    /\ fetchOrRefreshList namespace options (Some m) s
       = Ok (obj, err',
             Some (if isNil err' then <[namespace := true]> m else m)) s'
    /\ calls s' = calls s ++ CList namespace options runs err :: gets ++ tail
    /\ Forall (getAmong (listedItems namespace options s)) gets
    /\ length gets <= length (listedItems namespace options s)
    /\ logs s' = logs s ++ lg
    /\ (tail = [] /\ lg = [] /\ err' = err
        \/ exists runs' x e,
             x ∈ listedItems namespace options s
             /\ tail = [CList namespace (setResourceVersion "" options)
                              runs' err']
             /\ lg = [LogDetected namespace options (GetName x)
                                  (GetNamespace x) e;
                      LogRefreshed namespace err']).
Proof.
  destruct (List namespace options (world s)) as [[runs [e|]] w1] eqn:E.
  - eexists runs, (Some e), w1, _, (Some e), _, [], [], [].
    split; [done|]. split; [by apply fetch_list_failed|].
    split; [done|]. split; [constructor|]. split; [cbn; lia|].
    split; [cbn; by rewrite app_nil_r | by left].
  - destruct (checked (Some m) namespace) eqn:Hc.
    + eexists runs, None, w1, _, None, _, [], [], [].
      split; [done|]. split.
      * rewrite (fetch_checked _ _ _ _ _ _ E Hc). cbn.
        apply checked_true in Hc. cbn in Hc. by rewrite (insert_id _ _ _ Hc).
      * split; [done|]. split; [constructor|]. split; [cbn; lia|].
        split; [cbn; by rewrite app_nil_r | by left].
    + rewrite (listedItems_eq _ _ _ _ _ _ E).
      destruct (GetItems runs w1) as [items w2] eqn:Ei. cbn [fst].
      destruct (scanItems_step namespace options items
                  (setWorld w2 (afterList namespace options runs None w1 s)))
        as (b & s3 & g & lg & Es & Eg & Fg & Lg & El & Hb).
      destruct Hb as [[-> ->]|[-> (x & e & Hx & ->)]].
      * eexists runs, None, w1, _, None, _, g, [], [].
        split; [done|]. split; [by eapply fetch_no_refresh|].
        split; [rewrite Eg; cbn; by rewrite <- !app_assoc, app_nil_r|].
        split; [done|]. split; [done|].
        split; [by rewrite El | by left].
      * destruct (List namespace (setResourceVersion "" options) (world s3))
          as [[runs' err'] w4] eqn:E'.
        eexists runs, None, w1, _, err', _, g, [_], [_; _].
        split; [done|]. split; [by eapply fetch_refresh|].
        split; [cbn; rewrite Eg; cbn; by rewrite <- !app_assoc|].
        split; [done|]. split; [done|].
        split; [cbn; rewrite El; cbn; by rewrite <- app_assoc|].
        right. by eexists runs', x, e.
Qed.

Lemma quietScan_scanItems namespace options items s s' :
  quietScan items s = Some s' ->
  scanItems namespace options items s = Ok false s'.
Proof.
  intros Hq. rewrite <- (app_nil_r items).
  by rewrite (scanItems_quiet namespace options items [] s s' Hq).
Qed.

Lemma quietScan_populated items s :
  Forall populated items ->
  exists s', quietScan items s = Some s'
             /\ calls s' = calls s /\ logs s' = logs s.
Proof.
  intros Hp. revert s. induction Hp as [|x rest Hx _ IH]; intros s.
  - by exists s.
  - cbn [quietScan].
    destruct (StatusIsEmpty (Some x) (world s)) as [b w] eqn:E.
    pose proof (Hx (world s)) as Hb. rewrite E in Hb. cbn in Hb. subst b.
    rewrite (needRefresh_populated _ _ _ E).
    destruct (IH (setWorld w s)) as (s' & Hq & Ec & El).
    exists s'. by split.
Qed.

(** X1: for an allocated memo that does not mark the namespace, when
    the first [List] succeeds and no listed item asks for a refresh, no
    second [List] is made and nothing is logged: the call returns the
    listed object as it is with no error, marks the namespace, and has
    added to the history the one [List] and at most one [Get] per
    item. *)
Theorem no_refresh_when_scan_quiet namespace options m s runs w1
        items w2 s3 :
  checked (Some m) namespace = false ->
  List namespace options (world s) = ((runs, None), w1) ->
  GetItems runs w1 = (items, w2) ->
  quietScan items (setWorld w2 (afterList namespace options runs None w1 s))
  = Some s3 ->
  fetchOrRefreshList namespace options (Some m) s
  = Ok (ObjectOf runs, None, Some (<[namespace := true]> m)) s3
  /\ (exists gets,
         calls s3 = calls s ++ CList namespace options runs None :: gets
         /\ Forall (fun c => isGet c = true) gets
         /\ length gets <= length items)
  /\ logs s3 = logs s.
Proof.
  intros Hc E Ei Hq. split; [|split].
  - eapply fetch_no_refresh; [exact E | exact Hc | exact Ei |].
    by apply quietScan_scanItems.
  - destruct (quietScan_gets _ _ _ Hq) as (g & Eg & Fg & Lg).
    exists g. split; [|by split].
    rewrite Eg. cbn. by rewrite <- app_assoc.
  - by rewrite (quietScan_logs_eq _ _ _ Hq).
Qed.

(** X2: when every listed item has a populated status, a call on an
    allocated memo that does not mark the namespace costs exactly one
    [List] call and no [Get] call, returns the list with no error and
    marks the namespace. *)
Theorem populated_list_costs_one_call namespace options m s runs w1
        items w2 :
  checked (Some m) namespace = false ->
  List namespace options (world s) = ((runs, None), w1) ->
  GetItems runs w1 = (items, w2) ->
  Forall populated items ->
  exists s',
    fetchOrRefreshList namespace options (Some m) s
    = Ok (ObjectOf runs, None, Some (<[namespace := true]> m)) s'
    /\ calls s' = calls s ++ [CList namespace options runs None]
    /\ logs s' = logs s.
Proof.
  intros Hc E Ei Hp.
  destruct (quietScan_populated items
              (setWorld w2 (afterList namespace options runs None w1 s)) Hp)
    as (s' & Hq & Ec & El).
  exists s'. split; [|by split].
  eapply fetch_no_refresh; [exact E | exact Hc | exact Ei |].
  by apply quietScan_scanItems.
Qed.

(** X3: a call on an allocated memo returns, having made one or two
    [List] calls and no more [Get] calls than the first [List] answered
    items. *)
Theorem call_cost_bounds namespace options m s :
  exists r s' new,
    fetchOrRefreshList namespace options (Some m) s = Ok r s'
    /\ calls s' = calls s ++ new
    /\ 1 <= listCalls new <= 2
    /\ getCalls new <= length (listedItems namespace options s).
Proof.
  destruct (fetch_full namespace options m s)
    as (runs & err & w1 & obj & err' & s' & gets & tail & lg
        & E & Ef & Ec & Fg & Lg & El & Ht).
  eexists _, s', _. split; [exact Ef|]. split; [exact Ec|].
  assert (Forall (fun c : Call T L => isGet c = true) gets) as Fg'.
  { eapply Forall_impl; [exact Fg | apply getAmong_isGet]. }
  change (CList namespace options runs err :: gets ++ tail)
    with ([CList namespace options runs err] ++ gets ++ tail).
  rewrite !listCalls_app, !getCalls_app.
  rewrite (listCalls_gets _ Fg'), (getCalls_gets _ Fg').
  rewrite listCalls_one, getCalls_one.
  destruct Ht as [(-> & _ & _)|(runs' & x & e & _ & -> & _)].
  - change (listCalls (@nil (Call T L))) with 0.
    change (getCalls (@nil (Call T L))) with 0. lia.
  - rewrite listCalls_one, getCalls_one. lia.
Qed.

(** X4: the only things a call on an allocated memo fetches directly
    are listed items: every [Get] call it makes is for the namespace and
    name of an item that its first [List] answered, with the zero
    options. *)
Theorem gets_are_for_listed_items namespace options m s :
  exists r s' new,
    fetchOrRefreshList namespace options (Some m) s = Ok r s'
    /\ calls s' = calls s ++ new
    /\ Forall (fun c => isGet c = true ->
                        getAmong (listedItems namespace options s) c) new.
Proof.
  destruct (fetch_full namespace options m s)
    as (runs & err & w1 & obj & err' & s' & gets & tail & lg
        & E & Ef & Ec & Fg & Lg & El & Ht).
  eexists _, s', _. split; [exact Ef|]. split; [exact Ec|].
  constructor; [discriminate|]. apply Forall_app. split.
  - eapply Forall_impl; [exact Fg | auto].
  - destruct Ht as [(-> & _ & _)|(runs' & x & e & _ & -> & _)].
    + constructor.
    + constructor; [discriminate | constructor].
Qed.

(** X5: once a call for a namespace has returned no error, the next
    call for that namespace, whatever its options, makes its one [List]
    call and nothing else: no [Get], no second [List], no log line, and
    the memo stays as it is. *)
Theorem second_call_is_fast namespace options memo s obj memo1 s1 options' :
  fetchOrRefreshList namespace options memo s = Ok (obj, None, memo1) s1 ->
  exists obj' err' s2 runs,
    fetchOrRefreshList namespace options' memo1 s1
    = Ok (obj', err', memo1) s2
    /\ calls s2 = calls s1 ++ [CList namespace options' runs err']
    /\ logs s2 = logs s1.
Proof.
  intros Ef.
  assert (checked memo1 namespace = true) as Hc.
  { destruct memo as [m|].
    - destruct (fetch_shape namespace options m s)
        as (runs0 & err0 & w0 & obj0 & err1 & s1' & gets & tail
            & _ & Ef' & _).
      rewrite Ef in Ef'. injection Ef' as E1 E2 E3 E4.
      subst obj0 err1 s1' memo1. cbn [isNil].
      apply checked_true. apply lookup_insert_eq.
    - pose proof (fetch_nil_map namespace options s) as Hn.
      destruct (fetchOrRefreshList namespace options (Some ∅) s)
        as [[[obj0 err0] memo0] s0|msg]; [|done].
      destruct err0 as [e|]; cbn [isNil] in Hn; rewrite Ef in Hn; done. }
  destruct (List namespace options' (world s1)) as [[runs [e|]] w] eqn:E.
  - eexists _, _, _, runs. split; [by apply fetch_list_failed | done].
  - eexists _, _, _, runs. split; [by apply fetch_checked | done].
Qed.

(** X6: a call on an allocated memo logs exactly when it refreshes.
    With one [List] call it logs nothing; with two it logs two lines, the first naming a listed
    item, the second carrying the error of the second [List], which is
    the error returned. *)
Theorem refresh_is_logged namespace options m s :
  exists obj err memo' s' new lg,
    fetchOrRefreshList namespace options (Some m) s
    = Ok (obj, err, memo') s'
    /\ calls s' = calls s ++ new
    /\ logs s' = logs s ++ lg
    /\ (listCalls new = 1 /\ lg = []
        \/ listCalls new = 2
           /\ exists x e,
                x ∈ listedItems namespace options s
                /\ lg = [LogDetected namespace options (GetName x)
                                     (GetNamespace x) e;
                         LogRefreshed namespace err]).
Proof.
  destruct (fetch_full namespace options m s)
    as (runs & err & w1 & obj & err' & s' & gets & tail & lg
        & E & Ef & Ec & Fg & Lg & El & Ht).
  eexists obj, err', _, s', _, lg.
  split; [exact Ef|]. split; [exact Ec|]. split; [exact El|].
  assert (Forall (fun c : Call T L => isGet c = true) gets) as Fg'.
  { eapply Forall_impl; [exact Fg | apply getAmong_isGet]. }
  change (CList namespace options runs err :: gets ++ tail)
    with ([CList namespace options runs err] ++ gets ++ tail).
  rewrite !listCalls_app, (listCalls_gets _ Fg'), listCalls_one.
  destruct Ht as [(-> & -> & _)|(runs' & x & e & Hx & -> & ->)].
  - by left.
  - right. rewrite listCalls_one. split; [done|]. by exists x, e.
Qed.

(** X7: through any sequence of calls on an allocated memo, the memo
    entry of a namespace that none of the calls is for stays as it
    was. *)
Theorem unrequested_namespace_untouched reqs m s k :
  k ∉ requested reqs ->
  exists m' s',
    fetchMany reqs (Some m) s = Ok (Some m') s' /\ m' !! k = m !! k.
Proof.
  revert m s. induction reqs as [|[ns options] rest IH]; intros m s Hk.
  - by exists m, s.
  - apply not_elem_of_cons in Hk as [Hne Hk].
    destruct (fetch_shape ns options m s)
      as (_ & _ & _ & obj & err' & s1 & _ & _ & _ & Ef & _).
    destruct (IH (if isNil err' then <[ns := true]> m else m) s1 Hk)
      as (memo' & s' & Em & Hm).
    exists memo', s'. split.
    + cbn. unfold bind at 1. rewrite Ef. exact Em.
    + rewrite Hm. destruct (isNil err'); [|done].
      apply lookup_insert_ne. cbn in Hne. congruence.
Qed.

End OrchestratorBehaviour.

(** * The adapters under the detector *)

(** X8: what the detector makes of the two adapters.  A run listed with
    a start time needs no refresh and no call to the client.  For a run
    listed without one, the one direct [Get], when it answers no error,
    decides: a run with a start time means refresh, a run without means
    none, and a nil run with a nil error means refresh as well. *)
Theorem adapters_divergence (C : Type) (client : Clientset C) :
  (forall (r : TaskRun) (s : State C TaskRun TaskRunList),
      let t := {| TaskRunLister.Client := client |} in
      (TaskRunLister.StatusIsEmpty (Some r) = false ->
       @needRefresh _ _ _ (TaskRunLister.lister t) _ (Some r) s
       = Ok (false, None) s)
      /\ (TaskRunLister.StatusIsEmpty (Some r) = true ->
          forall got w,
            TaskRuns_Get client (GetNamespace r) (GetName r) GetOptions_zero
                         (world s) = ((got, None), w) ->
            @needRefresh _ _ _ (TaskRunLister.lister t) _ (Some r) s
            = Ok (match got with
                  | None => true
                  | Some g => negb (IsZero (TaskRunStartTime (TaskRunStatusOf g)))
                  end, None)
                 (@afterGet C TaskRun TaskRunList
                            (GetNamespace r) (GetName r) got None w s)))
  /\ (forall (r : PipelineRun) (s : State C PipelineRun PipelineRunList),
         let p := {| PipelineRunLister.Client := client |} in
         (PipelineRunLister.StatusIsEmpty (Some r) = false ->
          @needRefresh _ _ _ (PipelineRunLister.lister p) _ (Some r) s
          = Ok (false, None) s)
         /\ (PipelineRunLister.StatusIsEmpty (Some r) = true ->
             forall got w,
               PipelineRuns_Get client (GetNamespace r) (GetName r)
                                GetOptions_zero (world s) = ((got, None), w) ->
               @needRefresh _ _ _ (PipelineRunLister.lister p) _ (Some r) s
               = Ok (match got with
                     | None => true
                     | Some g =>
                         negb (IsZero (PipelineRunStartTime
                                         (PipelineRunStatusOf g)))
                     end, None)
                    (@afterGet C PipelineRun PipelineRunList
                               (GetNamespace r) (GetName r) got None w s))).
Proof.
  split; intros r s l; split.
  - intros E.
    rewrite (@needRefresh_populated _ _ _ (TaskRunLister.lister l) _
               (Some r) s (world s)); [by destruct s|].
    exact (f_equal (fun b => (b, world s)) E).
  - intros E got w Eg.
    rewrite (@needRefresh_get_ok _ _ _ (TaskRunLister.lister l) _
               r s (world s) got w (TaskRunLister.StatusIsEmpty got) w).
    + destruct s, got; reflexivity.
    + exact (f_equal (fun b => (b, world s)) E).
    + destruct s; exact Eg.
    + reflexivity.
  - intros E.
    rewrite (@needRefresh_populated _ _ _ (PipelineRunLister.lister l) _
               (Some r) s (world s)); [by destruct s|].
    exact (f_equal (fun b => (b, world s)) E).
  - intros E got w Eg.
    rewrite (@needRefresh_get_ok _ _ _ (PipelineRunLister.lister l) _
               r s (world s) got w (PipelineRunLister.StatusIsEmpty got) w).
    + destruct s, got; reflexivity.
    + exact (f_equal (fun b => (b, world s)) E).
    + destruct s; exact Eg.
    + reflexivity.
Qed.

(** * Showing the logs of a sidecar *)

Section SidecarLogs.

Import sidecarlogresults.

Context {W R : Type}.
Context `{PodLogs W R}.

Implicit Types s : IO W R.

(** For a pod in the pending phase nothing is asked of the pod log
    client: the state of the client is as it was, and the one event is
    the information line that the logs are skipped, carrying the pod and
    namespace fields after those of the logger. *)
Lemma DebugSidecarLogs_pending logger namespace name container s :
  DebugSidecarLogs logger namespace name container PodPending s
  = Ok tt
       {| io := io s;
          trace := trace s
                   ++ [EvLog InfoLevel
                             "pod is in pending state, skipping sidecar logs"
                             (logger ++ [("pod", name); ("ns", namespace)])] |}.
Proof.
  unfold DebugSidecarLogs, Infow, record, With. cbn.
  by rewrite app_nil_r, <- app_assoc.
Qed.

(** When the log request is answered with an error, the error is
    logged at error level and the function returns: nothing is read and
    nothing is closed, also when a reader came with the error. *)
Lemma DebugSidecarLogs_on_error logger namespace name container
        podPhase s res e w :
  podPhase <> PodPending ->
  Stream namespace name {| Container := container |} (io s)
  = ((res, Some e), w) ->
  DebugSidecarLogs logger namespace name container podPhase s
  = Ok tt
       {| io := w;
          trace := trace s
                   ++ [EvStream namespace name {| Container := container |};
                       EvLog ErrorLevel "error getting sidecar logs"
                             (logger ++ [("pod", name); ("ns", namespace);
                                         ("error", e)])] |}.
Proof.
  intros Hp E. unfold DebugSidecarLogs.
  rewrite bool_decide_eq_false_2 by done.
  unfold bind, callStream. rewrite E. cbn.
  unfold Errorw, record, With. cbn.
  by rewrite <- !app_assoc.
Qed.

(** The path on which the log request is answered with a reader. *)
Lemma DebugSidecarLogs_on_reader logger namespace name container
        podPhase s r w data err w' cerr w'' :
  podPhase <> PodPending ->
  Stream namespace name {| Container := container |} (io s)
  = ((Some r, None), w) ->
  ReadAll r w = ((data, err), w') ->
  Close r w' = (cerr, w'') ->
  let fields := logger ++ [("pod", name); ("ns", namespace)] in
  let failure :=
    match err with
    | Some e => [EvLog ErrorLevel "error reading sidecar logs"
                       (fields ++ [("error", e)])]
    | None => []
    end in
  DebugSidecarLogs logger namespace name container podPhase s
  = Ok tt
       {| io := w'';
          trace := trace s
                   ++ [EvStream namespace name {| Container := container |};
                       EvReadAll r]
                   ++ failure
                   ++ [EvLog InfoLevel "sidecar logs"
                             (fields ++ [("logs", data)]);
                       EvClose r] |}.
Proof.
  intros Hp E Er Ec fields failure. unfold DebugSidecarLogs.
  rewrite bool_decide_eq_false_2 by done.
  unfold bind at 1. unfold callStream. rewrite E. cbn [isNil negb].
  unfold bind at 1. unfold callReadAll. cbn [io record]. rewrite Er.
  subst failure fields. destruct err as [e|]; cbn [isNil negb].
  - unfold bind, Errorw, Infow, callClose, record, ret, With. cbn.
    rewrite Ec. cbn. by rewrite <- !app_assoc.
  - unfold bind, Infow, callClose, record, ret, With. cbn.
    rewrite Ec. cbn. by rewrite <- !app_assoc.
Qed.

(** X10: what the function does with the pod log client, on every
    input.  Unless the request is answered with neither a reader nor an
    error, in which case the deferred close panics, the function
    returns, having made at most one request and none for a pending pod,
    having read and closed a reader as often as it was given one without
    an error, and having logged one or two lines. *)
Theorem DebugSidecarLogs_safe logger namespace name container podPhase s :
  (exists s' new,
      DebugSidecarLogs logger namespace name container podPhase s = Ok tt s'
      /\ trace s' = trace s ++ new
      /\ count isStream new <= 1
      /\ (podPhase = PodPending -> count isStream new = 0)
      /\ count isReadAll new = count isClose new
      /\ count isClose new
         = (if bool_decide (podPhase = PodPending) then 0
            else match fst (Stream namespace name
                                  {| Container := container |} (io s)) with
                 | (Some _, None) => 1
                 | _ => 0
                 end)
      /\ 1 <= count isLog new <= 2)
  \/ (podPhase <> PodPending
      /\ fst (Stream namespace name {| Container := container |} (io s))
         = (None, None)
      /\ exists msg,
          DebugSidecarLogs logger namespace name container podPhase s
          = Panic msg).
Proof.
  destruct (decide (podPhase = PodPending)) as [->|Hp].
  - left. eexists _, [_]. split; [apply DebugSidecarLogs_pending|].
    split; [done|]. cbn. repeat split; lia.
  - rewrite (bool_decide_eq_false_2 _ Hp).
    destruct (Stream namespace name {| Container := container |} (io s))
      as [[res [e|]] w] eqn:E.
    + left. eexists _, [_; _].
      split; [by eapply DebugSidecarLogs_on_error|].
      split; [done|]. cbn. destruct res; repeat split; (done || lia).
    + destruct res as [r|].
      * left. destruct (ReadAll r w) as [[data err] w'] eqn:Er.
        destruct (Close r w') as [cerr w''] eqn:Ec.
        eexists _, _.
        split; [by eapply DebugSidecarLogs_on_reader|].
        split; [done|]. destruct err; cbn; repeat split; (done || lia).
      * right. split; [done|]. split; [done|].
        unfold DebugSidecarLogs. rewrite (bool_decide_eq_false_2 _ Hp).
        unfold bind, callStream. rewrite E. cbn. eauto.
Qed.

(** X11: when the log request is answered with a reader and no error,
    the reader is read once and closed once, and the close comes last,
    whether reading fails or not; a failed read does not end the
    function: what was read is still logged in the line "sidecar logs",
    after the error line. *)
Theorem DebugSidecarLogs_reads_and_closes logger namespace name container
        podPhase s r w data err w' cerr w'' :
  podPhase <> PodPending ->
  Stream namespace name {| Container := container |} (io s)
  = ((Some r, None), w) ->
  ReadAll r w = ((data, err), w') ->
  Close r w' = (cerr, w'') ->
  let fields := logger ++ [("pod", name); ("ns", namespace)] in
  let failure :=
    match err with
    | Some e => [EvLog ErrorLevel "error reading sidecar logs"
                       (fields ++ [("error", e)])]
    | None => []
    end in
  DebugSidecarLogs logger namespace name container podPhase s
  = Ok tt
       {| io := w'';
          trace := trace s
                   ++ [EvStream namespace name {| Container := container |};
                       EvReadAll r]
                   ++ failure
                   ++ [EvLog InfoLevel "sidecar logs"
                             (fields ++ [("logs", data)]);
                       EvClose r] |}.
Proof. intros. by eapply DebugSidecarLogs_on_reader. Qed.

End SidecarLogs.

(** * The further properties at concrete inputs *)

Section MoreInstances.

Import testLister.

(** Two items without status whose direct fetches have none either. *)
Lemma no_refresh_when_scan_quiet_witness :
  exists s',
    fetchOrRefreshList namespace ListOptions_zero (Some ∅)
      (start (new [Some noStatus; Some noStatus] noStatusItems))
    = Ok (ObjectOf (Some {| TaskRunItems := noStatusItems |}), None,
          Some (<[namespace := true]> ∅)) s'
    /\ getCount (world s') = 2
    /\ listCount (world s') = 1
    /\ logs s' = [].
Proof.
  edestruct (no_refresh_when_scan_quiet (H := lister) namespace
               ListOptions_zero ∅
               (start (new [Some noStatus; Some noStatus] noStatusItems)))
    as (Ef & _ & El);
    [vm_compute; reflexivity | vm_compute; reflexivity
     | vm_compute; reflexivity | vm_compute; reflexivity |].
  eexists. split; [exact Ef|]. split; [vm_compute; reflexivity|].
  split; [vm_compute; reflexivity | exact El].
Defined.

(** The scenario of [TestFetchOrRefreshList_MissCacheHasStatus]. *)
Lemma populated_list_costs_one_call_witness :
  exists s',
    fetchOrRefreshList namespace ListOptions_zero (Some ∅)
      (start (new [Some noStatus; Some hasStatus] hasStatusItems))
    = Ok (ObjectOf (Some {| TaskRunItems := hasStatusItems |}), None,
          Some (<[namespace := true]> ∅)) s'
    /\ calls s' = [CList namespace ListOptions_zero
                         (Some {| TaskRunItems := hasStatusItems |}) None].
Proof.
  edestruct (populated_list_costs_one_call (H := lister) namespace
               ListOptions_zero ∅
               (start (new [Some noStatus; Some hasStatus] hasStatusItems)))
    as (s' & Ef & Ec & _);
    [vm_compute; reflexivity | vm_compute; reflexivity
     | vm_compute; reflexivity
     | repeat constructor; intros w; reflexivity |].
  exists s'. split; [exact Ef | exact Ec].
Defined.

(** A first call that refreshes, then a second call for the same
    namespace. *)
Lemma second_call_is_fast_witness :
  exists obj memo1 s1 obj' err' s2 runs,
    fetchOrRefreshList namespace ListOptions_zero (Some ∅)
      (start (new [Some noStatus; Some hasStatus] noStatusItems))
    = Ok (obj, None, memo1) s1
    /\ fetchOrRefreshList namespace ListOptions_zero memo1 s1
       = Ok (obj', err', memo1) s2
    /\ calls s2 = calls s1 ++ [CList namespace ListOptions_zero runs err'].
Proof.
  assert (exists obj memo1 s1,
             fetchOrRefreshList namespace ListOptions_zero (Some ∅)
               (start (new [Some noStatus; Some hasStatus] noStatusItems))
             = Ok (obj, None, memo1) s1) as (obj & memo1 & s1 & Ef).
  { eexists _, _, _. vm_compute; reflexivity. }
  destruct (second_call_is_fast (H := lister) _ _ _ _ _ _ _
              ListOptions_zero Ef)
    as (obj' & err' & s2 & runs & Ef2 & Ec & _).
  exists obj, memo1, s1, obj', err', s2, runs.
  split; [exact Ef | split; [exact Ef2 | exact Ec]].
Defined.

Lemma unrequested_namespace_untouched_witness :
  exists m' s',
    fetchMany [(namespace, ListOptions_zero)] (Some {[ "other" := false ]})
      (start (new [] hasStatusItems))
    = Ok (Some m') s'
    /\ m' !! "other" = Some false.
Proof.
  edestruct (unrequested_namespace_untouched (H := lister)
               [(namespace, ListOptions_zero)] {[ "other" := false ]}
               (start (new [] hasStatusItems)) "other")
    as (memo' & s' & Em & Hm).
  - cbn. apply not_elem_of_cons. split; [discriminate|].
    apply not_elem_of_nil.
  - exists memo', s'. split; [exact Em|]. rewrite Hm.
    vm_compute; reflexivity.
Defined.

(** A run that the cache lists without status and [etcd] holds with
    one. *)
Lemma adapters_divergence_witness :
  exists s',
    needRefresh (H := fake.taskRuns) (Some fake.stale)
      (fake.start {| fake.cache := [fake.stale]; fake.etcd := [fake.fresh];
                     fake.down := false |})
    = Ok (true, None) s'
    /\ getCalls (calls s') = 1.
Proof.
  eexists. split.
  - eapply (proj2 (proj1 (adapters_divergence fake.store fake.clientset)
                     fake.stale
                     (fake.start {| fake.cache := [fake.stale];
                                    fake.etcd := [fake.fresh];
                                    fake.down := false |}))
                  eq_refl (Some fake.fresh)).
    vm_compute; reflexivity.
  - vm_compute; reflexivity.
Defined.

(** A reader that breaks off half way: the half read is logged after
    the error, and the reader is closed. *)
Lemma DebugSidecarLogs_reads_and_closes_witness :
  exists s',
    sidecarlogresults.DebugSidecarLogs (H := sidecarlogresults.memPodLogs)
      [] "ns" "pod-1" "sidecar" "Running"
      (sidecarlogresults.start
         {| sidecarlogresults.containers := [("sidecar", "overflow")];
            sidecarlogresults.broken := true;
            sidecarlogresults.closed := 0 |})
    = Ok tt s'
    /\ sidecarlogresults.closed (sidecarlogresults.io s') = 1
    /\ sidecarlogresults.trace s'
       = [sidecarlogresults.EvStream "ns" "pod-1"
            {| sidecarlogresults.Container := "sidecar" |};
          sidecarlogresults.EvReadAll "overflow";
          sidecarlogresults.EvLog sidecarlogresults.ErrorLevel
            "error reading sidecar logs"
            [("pod", "pod-1"); ("ns", "ns"); ("error", "unexpected EOF")];
          sidecarlogresults.EvLog sidecarlogresults.InfoLevel
            "sidecar logs"
            [("pod", "pod-1"); ("ns", "ns"); ("logs", "over")];
          sidecarlogresults.EvClose "overflow"].
Proof.
  eexists. split.
  - eapply (DebugSidecarLogs_reads_and_closes
              (H := sidecarlogresults.memPodLogs)
              [] "ns" "pod-1" "sidecar" "Running");
      [discriminate | vm_compute; reflexivity | vm_compute; reflexivity
       | vm_compute; reflexivity].
  - split; vm_compute; reflexivity.
Defined.

End MoreInstances.
